(** * Dynamic airline ticket pricing by tabular Q-learning

    A shallow embedding of [code.py]: the market model
    ([get_demand_probability], [get_booking_rate],
    [get_competitor_price_level]), the enumeration of the state space and of
    the action-value table [Q], the training loop and the extraction of the
    greedy policy.

    Conventions of the embedding.
    - Python [int]s are [Z]; Python and NumPy floats are real numbers [R]
      (rounding, infinities and NaN are not modelled).
    - The strings ['Low'], ['Medium'], ['High'] and ['Economy'],
      ['Business'] are the constructors of [level] and [segment].
    - A Python exception is the constructor [Raise] of [result].
    - The dictionary [Q] is a [gmap]; a missing key raises [KeyError].
    - Every call to the random source reads one field of a [draw]; a run is
      parameterised by the sequence of draws, [nat -> draw].
    - The [while] loop of an episode takes fuel; [None] means that the fuel
      ran out, and is shown never to happen with [time_horizon - 1] units. *)

From Stdlib Require Import ZArith Reals Lra Lia List.
From stdpp Require Import base decidable countable list list_numbers gmap fin_maps.
Import ListNotations.

#[local] Open Scope Z_scope.

(** ** Values *)

(** The members of [booking_rates] and of [competitor_prices]. *)
Inductive level : Type := Low | Medium | High.

(** The members of [customer_segments]. *)
Inductive segment : Type := Economy | Business.

#[global] Instance level_eq_dec : EqDecision level.
Proof. solve_decision. Defined.

#[global] Instance segment_eq_dec : EqDecision segment.
Proof. solve_decision. Defined.

Definition level_to_nat (l : level) : nat :=
  match l with Low => 0 | Medium => 1 | High => 2 end%nat.

Definition level_of_nat (n : nat) : option level :=
  match n with
  | O => Some Low
  | S O => Some Medium
  | S (S O) => Some High
  | _ => None
  end.

#[global] Instance level_countable : Countable level.
Proof.
  apply (inj_countable level_to_nat level_of_nat).
  intros []; reflexivity.
Defined.

Definition segment_to_nat (s : segment) : nat :=
  match s with Economy => 0 | Business => 1 end%nat.

Definition segment_of_nat (n : nat) : option segment :=
  match n with
  | O => Some Economy
  | S O => Some Business
  | _ => None
  end.

#[global] Instance segment_countable : Countable segment.
Proof.
  apply (inj_countable segment_to_nat segment_of_nat).
  intros []; reflexivity.
Defined.

(** ** Exceptions *)

Inductive exn : Type :=
| KeyError
| IndexError
| ValueError
| TypeError
| ZeroDivisionError.

Inductive result (A : Type) : Type :=
| Ok (a : A)
| Raise (e : exn).

Arguments Ok {A} a.
Arguments Raise {A} e.

#[global] Instance result_ret : MRet result := fun A a => Ok a.

#[global] Instance result_bind : MBind result := fun A B k r =>
  match r with
  | Ok a => k a
  | Raise e => Raise e
  end.

Definition is_ok {A : Type} (r : result A) : Prop :=
  match r with Ok _ => True | Raise _ => False end.

(** ** Configuration: the module-level constants of [code.py] *)

Record config : Type := Config {
  num_seats : Z;
  time_horizon : Z;
  price_levels : list Z;
  alpha : R;
  gamma : R;
  epsilon : R;
  episodes : nat
}.

(** [list(range(lo, hi, step))] for a positive [step], by fuel. *)
Fixpoint range_step (fuel : nat) (lo hi step : Z) : list Z :=
  match fuel with
  | O => []
  | S fuel' => if lo <? hi then lo :: range_step fuel' (lo + step) hi step
               else []
  end.

(** [range(n)]. *)
Definition range (n : Z) : list Z := seqZ 0 n.

Definition default_config : config :=
  {| num_seats := 100;
     time_horizon := 12;
     price_levels := range_step 1000 100 (650 + 1) 20;
     alpha := 15 / 100;
     gamma := 85 / 100;
     epsilon := 2 / 10;
     episodes := 5000 |}.

Definition customer_segments : list segment := [Economy; Business].
Definition booking_rates : list level := [Low; Medium; High].
Definition competitor_prices : list level := [Low; Medium; High].

(** ** Built-ins on floats *)

(** [max(a, b)] keeps [a] unless [b > a]; [min(a, b)] keeps [a] unless
    [b < a]. *)
Definition py_max2 (a b : R) : R := if Rlt_dec a b then b else a.
Definition py_min2 (a b : R) : R := if Rlt_dec b a then b else a.

(** [x ** y] on a base [x >= 0]: [0 ** y] is [0] for [y > 0]. *)
Definition py_pow (x y : R) : R :=
  if Req_dec_T x 0 then 0%R else Rpower x y.

(** [max(l)]: the first element, replaced by each later one that is
    greater; [ValueError] on the empty list. *)
Definition py_max (l : list R) : result R :=
  match l with
  | [] => Raise ValueError
  | x :: xs => Ok (fold_left py_max2 xs x)
  end.

(** ** Market model *)

Section Market.

Variable cfg : config.

Definition price_sensitivity (s : segment) : R :=
  match s with Economy => 2 / 1000 | Business => 1 / 1000 end.

Definition competitor_influence (c : level) : R :=
  match c with Low => 75 / 100 | Medium => 105 / 100 | High => 13 / 10 end.

Definition customer_elasticity (s : segment) : R :=
  match s with Economy => 12 / 10 | Business => 8 / 10 end.

(** The unclamped [demand_prob] of line 33. *)
Definition demand_prob (price : R) (s : segment) (c : level) : R :=
  (5 / 10 * (exp (- price_sensitivity s * py_pow price (customer_elasticity s))
             + 1 / 10) * competitor_influence c)%R.

(** Lines 29-34. For [price < 0] the power [price ** customer_elasticity]
    of a negative base to a fractional exponent is a complex number in
    Python; the embedding has no such value and reports the call as
    [TypeError], the exception a complex probability meets once it is used
    as one. *)
Definition get_demand_probability (price : R) (s : segment) (c : level)
  : result R :=
  if Rlt_dec price 0 then Raise TypeError
  else Ok (py_min2 (py_max2 (demand_prob price s c) (1 / 10)) 1).

Definition time_factor (time_elapsed : Z) : R :=
  if 0 <? time_elapsed then ln (IZR (1 + time_elapsed)) else 0%R.

Definition rate (seats_sold time_elapsed : Z) : R :=
  (IZR seats_sold / (1 + time_factor time_elapsed))%R.

Definition low_threshold : R :=
  (IZR (num_seats cfg) / IZR (4 * time_horizon cfg))%R.
Definition medium_threshold : R :=
  (IZR (3 * num_seats cfg) / IZR (5 * time_horizon cfg))%R.
Definition high_threshold : R :=
  (IZR (num_seats cfg) / IZR (time_horizon cfg))%R.

(** The thresholds divide by [time_horizon]: [ZeroDivisionError] when it
    is 0. *)
Definition get_booking_rate (seats_sold time_elapsed : Z) : result level :=
  let r := rate seats_sold time_elapsed in
  if time_horizon cfg =? 0 then Raise ZeroDivisionError
  else if Rlt_dec r low_threshold then Ok Low
  else if Rlt_dec r medium_threshold then Ok Medium
  else if Rlt_dec r high_threshold then Ok High
  else Ok High.

End Market.

(** ** Sequences and the random source *)

(** [seq[i]]: negative indices count from the end; [IndexError] outside. *)
Definition py_index {A : Type} (l : list A) (i : Z) : result A :=
  let n := Z.of_nat (length l) in
  let j := if i <? 0 then n + i else i in
  if (0 <=? j) && (j <? n) then
    match nth_error l (Z.to_nat j) with
    | Some x => Ok x
    | None => Raise IndexError
    end
  else Raise IndexError.

(** [random.choice(seq)]: [IndexError] on an empty sequence, otherwise the
    element at the drawn position. *)
Definition random_choice {A : Type} (l : list A) (k : nat) : result A :=
  match nth_error l (k mod length l) with
  | Some x => Ok x
  | None => Raise IndexError
  end.

(** [x % m] on floats for [m > 0], and [int(x)] (truncation towards 0). *)
Definition py_fmod (x m : R) : R := (x - m * IZR (Int_part (x / m)))%R.
Definition py_int (x : R) : Z :=
  if Rle_dec 0 x then Int_part x else - Int_part (- x).

(** [np.random.binomial(1, p)]: [ValueError] unless [0 <= p <= 1]; the
    trial succeeds when the uniform draw [u] falls below [p]. *)
Definition np_binomial1 (p u : R) : result bool :=
  if Rlt_dec p 0 then Raise ValueError
  else if Rlt_dec 1 p then Raise ValueError
  else Ok (if Rlt_dec u p then true else false).

(** The random numbers one iteration of the episode loop consumes, in the
    order of the calls. *)
Record draw : Type := Draw {
  fluct_state : R;      (* np.random.normal in get_competitor_price_level(time) *)
  segment_pick : nat;   (* random.choice(customer_segments) *)
  explore_u : R;        (* random.uniform(0, 1) *)
  action_pick : nat;    (* random.choice(actions) or random.choice(best_actions) *)
  sale_u : R;           (* np.random.binomial(1, demand_probability) *)
  fluct_next : R        (* np.random.normal in the second get_competitor_price_level(time) *)
}.

Section Competitor.

Variable cfg : config.

Definition baseline_level : list level := [Low; Medium; High].

Definition get_competitor_price_level (time : Z) (fluctuation : R)
  : result level :=
  if time_horizon cfg =? 0 then Raise ZeroDivisionError
  else
    let shift_factor :=
      (IZR time / IZR (time_horizon cfg)
       * IZR (Z.of_nat (length baseline_level)))%R in
    let adjusted_level :=
      py_int (py_fmod (shift_factor + fluctuation)
                      (IZR (Z.of_nat (length baseline_level)))) in
    py_index baseline_level adjusted_level.

(** Lines 76-87; the episode loop does not call it (line 120 draws the
    segment uniformly). [u] is the draw of [np.random.rand()], [pick] that
    of [random.choice]. *)
Definition get_customer_segment (time seats_left : Z) (u : R) (pick : nat)
  : result segment :=
  if time_horizon cfg =? 0 then Raise ZeroDivisionError
  else
    let economy_bias :=
      py_max2 (2 / 10) (1 - IZR time / IZR (time_horizon cfg))%R in
    if Rlt_dec (IZR seats_left) (IZR (num_seats cfg) / 3)
    then Ok (if Rlt_dec u (1 - economy_bias) then Business else Economy)
    else random_choice customer_segments pick.

End Competitor.

(** ** State space and action-value table *)

(** [(seats_left, time, booking_rate, competitor_price, customer_segment)] *)
Abbreviation state := (Z * Z * level * level * segment)%type.

Abbreviation qtable := (gmap (state * Z) R).
Abbreviation policy := (gmap state Z).

(** [Q[key]] *)
Definition q_get (Q : qtable) (key : state * Z) : result R :=
  match Q !! key with
  | Some v => Ok v
  | None => Raise KeyError
  end.

(** [[f(a) for a in l]] for an [f] that may raise. *)
Fixpoint map_result {A B : Type} (f : A -> result B) (l : list A)
  : result (list B) :=
  match l with
  | [] => Ok []
  | a :: l' => b ← f a; bs ← map_result f l'; Ok (b :: bs)
  end.

(** [[a for a in l if f(a) == v]] *)
Fixpoint filter_result {A : Type} (f : A -> result R) (v : R) (l : list A)
  : result (list A) :=
  match l with
  | [] => Ok []
  | a :: l' =>
      x ← f a;
      rest ← filter_result f v l';
      Ok (if Req_dec_T x v then a :: rest else rest)
  end.

Section Learner.

Variable cfg : config.

(** Lines 95-101. *)
Definition states : list state :=
  seats_left ← range (num_seats cfg + 1);
  time ← range (time_horizon cfg + 1);
  booking_rate ← booking_rates;
  competitor_price ← competitor_prices;
  customer_segment ← customer_segments;
  [(seats_left, time, booking_rate, competitor_price, customer_segment)].

Definition actions : list Z := price_levels cfg.

(** Lines 104-107. *)
Definition init_Q : qtable :=
  fold_left (fun Q state =>
    fold_left (fun Q action => <[(state, action) := 0%R]> Q) actions Q)
    states ∅.

(** The State Space Builder; nothing in it can raise. *)
Definition state_space_builder : result (list state * list Z * qtable) :=
  Ok (states, actions, init_Q).

(** The greedy choice of lines 126-129 and 163-166. *)
Definition greedy_action (Q : qtable) (s : state) (pick : nat) : result Z :=
  q_values ← map_result (fun a => q_get Q (s, a)) actions;
  max_q ← py_max q_values;
  best_actions ← filter_result (fun a => q_get Q (s, a)) max_q actions;
  random_choice best_actions pick.

(** The variables of one episode. *)
Record episode : Type := Episode {
  seats_left : Z;
  seats_sold : Z;
  time : Z;
  total_reward : Z;
  time_elapsed : Z
}.

(** Lines 111-115. *)
Definition episode_start : episode :=
  {| seats_left := num_seats cfg;
     seats_sold := 0;
     time := time_horizon cfg - 1;
     total_reward := 0;
     time_elapsed := 0 |}.

(** What one iteration did: the episode variables on entry and on exit,
    the (state, action, reward, next_state) it fed to the update, and
    whether [next_state in states] held. *)
Record transition : Type := Transition {
  tr_before : episode;
  tr_state : state;
  tr_action : Z;
  tr_reward : Z;
  tr_after : episode;
  tr_next_state : state;
  tr_next_in_states : bool
}.

(** The body of the [while] loop, lines 118-156. *)
Definition episode_step (Q : qtable) (e : episode) (d : draw)
  : result (qtable * episode * transition) :=
  booking_rate ← get_booking_rate cfg (seats_sold e) (time_elapsed e);
  competitor_price_level ←
    get_competitor_price_level cfg (time e) (fluct_state d);
  customer_segment ← random_choice customer_segments (segment_pick d);
  let state :=
    (seats_left e, time e, booking_rate, competitor_price_level,
     customer_segment) in
  action ←
    (if Rlt_dec (explore_u d) (epsilon cfg)
     then random_choice actions (action_pick d)
     else greedy_action Q state (action_pick d));
  demand_probability ←
    get_demand_probability (IZR action) customer_segment
                           competitor_price_level;
  sale_occurred ← np_binomial1 demand_probability (sale_u d);
  let seats_left' := if (sale_occurred : bool) then seats_left e - 1 else seats_left e in
  let seats_sold' := if sale_occurred then seats_sold e + 1 else seats_sold e in
  let reward := if sale_occurred then action else 0 in
  let e' :=
    {| seats_left := seats_left';
       seats_sold := seats_sold';
       time := time e - 1;
       total_reward := total_reward e + reward;
       time_elapsed := time_elapsed e + 1 |} in
  next_booking_rate ← get_booking_rate cfg (seats_sold e') (time_elapsed e');
  next_competitor_price_level ←
    get_competitor_price_level cfg (time e') (fluct_next d);
  let next_state :=
    (seats_left e', time e', next_booking_rate, next_competitor_price_level,
     customer_segment) in
  let known := bool_decide (next_state ∈ states) in
  max_future_q ←
    (if known
     then future_q_values ← map_result (fun a => q_get Q (next_state, a)) actions;
          py_max future_q_values
     else Ok 0%R);
  old ← q_get Q (state, action);
  let Q' :=
    <[(state, action) :=
        (old + alpha cfg * (IZR reward + gamma cfg * max_future_q - old))%R]> Q in
  Ok (Q', e',
      {| tr_before := e; tr_state := state; tr_action := action;
         tr_reward := reward; tr_after := e'; tr_next_state := next_state;
         tr_next_in_states := known |}).

(** [while time > 0 and seats_left > 0], lines 117-156; [draws i] feeds
    iteration [i]. *)
Fixpoint episode_loop (fuel : nat) (draws : nat -> draw) (i : nat)
    (Q : qtable) (e : episode) (trace : list transition)
  : option (result (qtable * episode * list transition)) :=
  if (0 <? time e) && (0 <? seats_left e) then
    match fuel with
    | O => None
    | S fuel' =>
        match episode_step Q e (draws i) with
        | Raise x => Some (Raise x)
        | Ok (Q', e', t) =>
            episode_loop fuel' draws (S i) Q' e' (trace ++ [t])
        end
    end
  else Some (Ok (Q, e, trace)).

(** One episode, lines 111-156. *)
Definition run_episode (fuel : nat) (draws : nat -> draw) (Q : qtable)
  : option (result (qtable * episode * list transition)) :=
  episode_loop fuel draws 0 Q episode_start [].

(** [for episode in range(episodes)], lines 110-159, from episode number
    [k] on, with [n] episodes to go; the result carries the table and
    what each episode did. *)
Fixpoint train_from (fuel : nat) (draws : nat -> nat -> draw) (k n : nat)
    (Q : qtable) (log : list (episode * list transition))
  : option (result (qtable * list (episode * list transition))) :=
  match n with
  | O => Some (Ok (Q, log))
  | S n' =>
      match run_episode fuel (draws k) Q with
      | None => None
      | Some (Raise x) => Some (Raise x)
      | Some (Ok (Q', e, trace)) =>
          train_from fuel draws (S k) n' Q' (log ++ [(e, trace)])
      end
  end.

Definition train (fuel : nat) (draws : nat -> nat -> draw) (Q : qtable)
  : option (result (qtable * list (episode * list transition))) :=
  train_from fuel draws 0 (episodes cfg) Q [].

(** Lines 161-167; [picks i] breaks the tie for the [i]-th state. *)
Fixpoint extract_policy (Q : qtable) (picks : nat -> nat) (i : nat)
    (l : list state) (optimal_policy : policy) : result policy :=
  match l with
  | [] => Ok optimal_policy
  | s :: l' =>
      optimal_action ← greedy_action Q s (picks i);
      extract_policy Q picks (S i) l' (<[s := optimal_action]> optimal_policy)
  end.

(** The whole script. *)
Definition program (fuel : nat) (draws : nat -> nat -> draw)
    (picks : nat -> nat) : option (result (qtable * policy)) :=
  match state_space_builder with
  | Raise x => Some (Raise x)
  | Ok (sts, _, Q0) =>
      match train fuel draws Q0 with
      | None => None
      | Some (Raise x) => Some (Raise x)
      | Some (Ok (Q, _)) =>
          Some (optimal_policy ← extract_policy Q picks 0 sts ∅;
                Ok (Q, optimal_policy))
      end
  end.

End Learner.

(** ** Predicates used in the statements *)

(** The largest price level (0 for an empty list). *)
Definition max_price (cfg : config) : Z :=
  fold_right Z.max 0 (price_levels cfg).

(** [max_price / (1 - gamma)] *)
Definition q_bound (cfg : config) : R :=
  (IZR (max_price cfg) / (1 - gamma cfg))%R.

Definition q_bounded (cfg : config) (Q : qtable) : Prop :=
  forall key v, Q !! key = Some v -> (0 <= v <= q_bound cfg)%R.

(** The table has an entry for every enumerated state and every action. *)
Definition dense (cfg : config) (Q : qtable) : Prop :=
  forall s a, s ∈ states cfg -> a ∈ actions cfg -> is_Some (Q !! (s, a)).

(** A non-empty list of non-negative prices. *)
Definition prices_ok (cfg : config) : Prop :=
  price_levels cfg <> [] /\ Forall (fun p => 0 <= p) (price_levels cfg).

(** What section 7 of the specification calls a configuration error. *)
Definition invalid_config (cfg : config) : Prop :=
  time_horizon cfg <= 0 \/ num_seats cfg <= 0 \/ price_levels cfg = [].

(** The invariant of the seat counters. *)
Definition seats_consistent (cfg : config) (e : episode) : Prop :=
  seats_sold e + seats_left e = num_seats cfg
  /\ 0 <= seats_left e <= num_seats cfg
  /\ 0 <= seats_sold e <= num_seats cfg.

(** One iteration sells one seat or none. *)
Definition seats_step (t : transition) : Prop :=
  (seats_left (tr_after t) = seats_left (tr_before t) - 1
   /\ seats_sold (tr_after t) = seats_sold (tr_before t) + 1)
  \/ (seats_left (tr_after t) = seats_left (tr_before t)
      /\ seats_sold (tr_after t) = seats_sold (tr_before t)).

(** What the loop keeps true of the episode variables between iterations. *)
Definition episode_inv (cfg : config) (e : episode) : Prop :=
  seats_sold e + seats_left e = num_seats cfg
  /\ 0 <= seats_sold e
  /\ time e < time_horizon cfg.

(** What every iteration does: the seat counters are consistent on entry
    and on exit, one seat or none is sold, and [next_state] is an
    enumerated state, so that the lookup of line 150 succeeds. *)
Definition transition_ok (cfg : config) (t : transition) : Prop :=
  seats_consistent cfg (tr_before t)
  /\ seats_consistent cfg (tr_after t)
  /\ seats_step t
  /\ tr_next_state t ∈ states cfg
  /\ tr_next_in_states t = true.

(** The iterations one episode may take. *)
Definition enough_fuel (cfg : config) (fuel : nat) : Prop :=
  (Z.to_nat (time_horizon cfg - 1) <= fuel)%nat.

(** [a] is an action and no action has a larger entry in the row of [s]. *)
Definition is_argmax (cfg : config) (Q : qtable) (s : state) (a : Z) : Prop :=
  a ∈ actions cfg
  /\ exists v, Q !! (s, a) = Some v
     /\ forall a', a' ∈ actions cfg ->
          exists v', Q !! (s, a') = Some v' /\ (v' <= v)%R.

(** The default configuration with [time_horizon = 0]. *)
Definition no_horizon_config : config :=
  {| num_seats := 100;
     time_horizon := 0;
     price_levels := range_step 1000 100 (650 + 1) 20;
     alpha := 15 / 100;
     gamma := 85 / 100;
     epsilon := 2 / 10;
     episodes := 5000 |}.

(** A draw sequence: no noise, always the first element, never a sale
    unless the probability exceeds one half. *)
Definition still_draw : draw :=
  {| fluct_state := 0; segment_pick := 0; explore_u := 1 / 2;
     action_pick := 0; sale_u := 1 / 2; fluct_next := 0 |}.

Definition still_draws : nat -> nat -> draw := fun _ _ => still_draw.

Definition first_picks : nat -> nat := fun _ => 0%nat.

(** [baseline_level[i]] for an index in range. *)
Definition level_of_index (i : Z) : level :=
  if i =? 0 then Low else if i =? 1 then Medium else High.

(** The position of a state in [states]: the fields packed in the order of
    the loops of lines 96-100. *)
Definition state_index (cfg : config) (s : state) : Z :=
  let '(seats_left, time, booking_rate, competitor_price, customer_segment) := s in
  (((seats_left * (time_horizon cfg + 1) + time) * 3
    + Z.of_nat (level_to_nat booking_rate)) * 3
   + Z.of_nat (level_to_nat competitor_price)) * 2
  + Z.of_nat (segment_to_nat customer_segment).

(** How the fields of a logged iteration hang together. *)
Definition transition_shape (cfg : config) (t : transition) : Prop :=
  let '(seats, tm, _, _, g) := tr_state t in
  let '(seats', tm', _, _, g') := tr_next_state t in
  tr_state t ∈ states cfg
  /\ 1 <= seats <= num_seats cfg
  /\ 1 <= tm <= time_horizon cfg - 1
  /\ tm' = tm - 1
  /\ g' = g
  /\ tr_action t ∈ price_levels cfg
  /\ ((seats' = seats - 1 /\ tr_reward t = tr_action t)
      \/ (seats' = seats /\ tr_reward t = 0)).

(** A configuration with two price levels, for concrete tables. *)
Definition two_price_config : config :=
  {| num_seats := 3;
     time_horizon := 4;
     price_levels := [100; 120];
     alpha := 15 / 100;
     gamma := 85 / 100;
     epsilon := 2 / 10;
     episodes := 2 |}.

(** What an episode can have spent and earned: the clock, the seats sold
    and the revenue. *)
Definition episode_budget (cfg : config) (e : episode) : Prop :=
  time e + time_elapsed e = time_horizon cfg - 1
  /\ 0 <= seats_sold e <= time_elapsed e
  /\ seats_sold e + seats_left e = num_seats cfg
  /\ 0 <= total_reward e <= max_price cfg * seats_sold e.

(** The default configuration without any price level. *)
Definition no_price_config : config :=
  {| num_seats := 100;
     time_horizon := 12;
     price_levels := [];
     alpha := 15 / 100;
     gamma := 85 / 100;
     epsilon := 2 / 10;
     episodes := 5000 |}.

(** The default configuration with a learning rate of 0. *)
Definition frozen_config : config :=
  {| num_seats := 100;
     time_horizon := 12;
     price_levels := range_step 1000 100 (650 + 1) 20;
     alpha := 0;
     gamma := 85 / 100;
     epsilon := 2 / 10;
     episodes := 5000 |}.

(** [m] is the largest entry of the row of [s]. *)
Definition is_row_max (cfg : config) (Q : qtable) (s : state) (m : R) : Prop :=
  (exists a, a ∈ actions cfg /\ Q !! (s, a) = Some m)
  /\ forall a, a ∈ actions cfg -> exists v, Q !! (s, a) = Some v /\ (v <= m)%R.

(** The default configuration without any episode. *)
Definition untrained_config : config :=
  {| num_seats := 100;
     time_horizon := 12;
     price_levels := range_step 1000 100 (650 + 1) 20;
     alpha := 15 / 100;
     gamma := 85 / 100;
     epsilon := 2 / 10;
     episodes := 0 |}.

(** Tactics for the hypotheses of a concrete configuration. *)
Ltac default_prices :=
  split; [discriminate | simpl; repeat (constructor; [lia |]); constructor].

Ltac default_fuel := unfold enough_fuel; simpl; lia.

(** * Market model *)

Section MarketFacts.

#[local] Open Scope R_scope.

Lemma py_max2_ge a b : a <= py_max2 a b /\ b <= py_max2 a b.
Proof. unfold py_max2. destruct (Rlt_dec a b); lra. Qed.

Lemma py_max2_cases a b : py_max2 a b = a \/ py_max2 a b = b.
Proof. unfold py_max2. destruct (Rlt_dec a b); auto. Qed.

Lemma clamp_range x : 1 / 10 <= py_min2 (py_max2 x (1 / 10)) 1 <= 1.
Proof.
  unfold py_min2, py_max2.
  destruct (Rlt_dec x (1 / 10)); destruct (Rlt_dec 1 _); lra.
Qed.

Lemma clamp_mono x y :
  x <= y ->
  py_min2 (py_max2 x (1 / 10)) 1 <= py_min2 (py_max2 y (1 / 10)) 1.
Proof.
  intros Hxy. unfold py_min2, py_max2.
  destruct (Rlt_dec x (1 / 10)); destruct (Rlt_dec y (1 / 10));
    repeat match goal with |- context [Rlt_dec ?a ?b] =>
             destruct (Rlt_dec a b) end; lra.
Qed.

Lemma clamp_unpinned x :
  py_min2 (py_max2 x (1 / 10)) 1 <> 1 / 10 ->
  py_min2 (py_max2 x (1 / 10)) 1 <> 1 ->
  py_min2 (py_max2 x (1 / 10)) 1 = x.
Proof.
  unfold py_min2, py_max2.
  destruct (Rlt_dec x (1 / 10));
    repeat match goal with |- context [Rlt_dec ?a ?b] =>
             destruct (Rlt_dec a b) end; lra.
Qed.

Lemma price_sensitivity_pos s : 0 < price_sensitivity s.
Proof. destruct s; simpl; lra. Qed.

Lemma customer_elasticity_pos s : 0 < customer_elasticity s.
Proof. destruct s; simpl; lra. Qed.

Lemma competitor_influence_pos c : 0 < competitor_influence c.
Proof. destruct c; simpl; lra. Qed.

Lemma py_pow_increasing x y c : 0 < c -> 0 <= x < y -> py_pow x c < py_pow y c.
Proof.
  intros Hc [Hx Hxy]. unfold py_pow.
  destruct (Req_dec_T x 0) as [-> | Hx0]; destruct (Req_dec_T y 0); try lra.
  - unfold Rpower. apply exp_pos.
  - apply Rlt_Rpower_l; lra.
Qed.

Lemma demand_prob_decreasing p1 p2 s c :
  0 <= p1 < p2 -> demand_prob p2 s c < demand_prob p1 s c.
Proof.
  intros Hp. unfold demand_prob.
  pose proof (py_pow_increasing p1 p2 _ (customer_elasticity_pos s) Hp) as Hpow.
  pose proof (price_sensitivity_pos s) as Hs.
  pose proof (competitor_influence_pos c) as Hc.
  assert (exp (- price_sensitivity s * py_pow p2 (customer_elasticity s))
          < exp (- price_sensitivity s * py_pow p1 (customer_elasticity s)))
    as Hexp by (apply exp_increasing; nra).
  nra.
Qed.

Lemma time_factor_nonneg te : 0 <= time_factor te.
Proof.
  unfold time_factor. destruct (Z.ltb_spec 0 te) as [Hte | _]; [| lra].
  rewrite <- ln_1. left. apply ln_increasing; [lra |].
  apply IZR_lt. lia.
Qed.

Lemma rate_nonneg ss te : (0 <= ss)%Z -> 0 <= rate ss te.
Proof.
  intros Hss. unfold rate.
  pose proof (time_factor_nonneg te). apply IZR_le in Hss.
  apply Rmult_le_pos; [lra |]. left. apply Rinv_0_lt_compat. lra.
Qed.

(** The two thresholds that decide the outcome are multiples of
    [num_seats / time_horizon]. *)
Lemma thresholds_ratio cfg :
  time_horizon cfg <> 0%Z ->
  low_threshold cfg = high_threshold cfg / 4
  /\ medium_threshold cfg = 3 * high_threshold cfg / 5.
Proof.
  intros Hth. unfold low_threshold, medium_threshold, high_threshold.
  rewrite !mult_IZR.
  assert (IZR (time_horizon cfg) <> 0) by (apply not_0_IZR; exact Hth).
  split; field; assumption.
Qed.

(** C1. For [seats_sold >= 0] and [time_elapsed >= 0] (and a
    [time_horizon] that the thresholds can divide by), [get_booking_rate]
    returns one of three categories: ['High'] exactly when the rate is at
    or above [medium_threshold], ['Low'] exactly when it is below
    [low_threshold], ['Medium'] exactly in between. The branch on
    [high_threshold] changes nothing. *)
Theorem get_booking_rate_three_outcomes cfg seats_sold time_elapsed :
  time_horizon cfg <> 0%Z ->
  (0 <= seats_sold)%Z ->
  (0 <= time_elapsed)%Z ->
  exists b, get_booking_rate cfg seats_sold time_elapsed = Ok b
    /\ (b = High <-> medium_threshold cfg <= rate seats_sold time_elapsed)
    /\ (b = Low <-> rate seats_sold time_elapsed < low_threshold cfg)
    /\ (b = Medium <->
        low_threshold cfg <= rate seats_sold time_elapsed
                          < medium_threshold cfg).
Proof.
  intros Hth Hss Hte.
  destruct (thresholds_ratio cfg Hth) as [Hlow Hmed].
  pose proof (rate_nonneg seats_sold time_elapsed Hss) as Hrate.
  unfold get_booking_rate.
  destruct (Z.eqb_spec (time_horizon cfg) 0) as [| _]; [contradiction |].
  destruct (Rlt_dec _ (low_threshold cfg)) as [Hl | Hl];
    [| destruct (Rlt_dec _ (medium_threshold cfg)) as [Hm | Hm];
       [| destruct (Rlt_dec _ (high_threshold cfg))]];
    eexists; (split; [reflexivity |]);
    repeat split; intros; try discriminate; try lra.
Qed.

Lemma get_demand_probability_eq price s c :
  0 <= price ->
  get_demand_probability price s c
  = Ok (py_min2 (py_max2 (demand_prob price s c) (1 / 10)) 1).
Proof.
  intros Hprice. unfold get_demand_probability.
  destruct (Rlt_dec price 0); [lra | reflexivity].
Qed.

(** C3. For every [price >= 0], segment and competitor level,
    [get_demand_probability] returns a value in [[0.1, 1.0]]. *)
Theorem get_demand_probability_range price s c :
  0 <= price ->
  exists p, get_demand_probability price s c = Ok p /\ 1 / 10 <= p <= 1.
Proof.
  intros Hprice. rewrite get_demand_probability_eq by exact Hprice.
  eexists; split; [reflexivity | apply clamp_range].
Qed.

(** C8. For a fixed segment and competitor level,
    [get_demand_probability] does not increase with the price, and it
    decreases strictly between two prices at which neither value sits on
    a clamp bound. *)
Theorem get_demand_probability_decreasing p1 p2 s c :
  0 <= p1 < p2 ->
  exists d1 d2,
    get_demand_probability p1 s c = Ok d1
    /\ get_demand_probability p2 s c = Ok d2
    /\ d2 <= d1
    /\ (d1 <> 1 / 10 -> d1 <> 1 -> d2 <> 1 / 10 -> d2 <> 1 -> d2 < d1).
Proof.
  intros Hp. pose proof (demand_prob_decreasing p1 p2 s c Hp) as Hraw.
  unfold get_demand_probability.
  destruct (Rlt_dec p1 0); [lra |]. destruct (Rlt_dec p2 0); [lra |].
  do 2 eexists; split; [reflexivity |]; split; [reflexivity |]; split.
  - apply clamp_mono; lra.
  - intros H1 H1' H2 H2'.
    rewrite (clamp_unpinned _ H1 H1'), (clamp_unpinned _ H2 H2'). exact Hraw.
Qed.

End MarketFacts.

(** * State space and initial table *)

Section StateSpace.

Variable cfg : config.

Lemma elem_of_range n z : z ∈ range n <-> 0 <= z < n.
Proof. unfold range. rewrite elem_of_seqZ. lia. Qed.

Lemma elem_of_states seats time b c g :
  (seats, time, b, c, g) ∈ states cfg
  <-> 0 <= seats <= num_seats cfg /\ 0 <= time <= time_horizon cfg.
Proof.
  unfold states. split.
  - intros H.
    apply list_elem_of_bind in H as (s & H & Hs%elem_of_range).
    apply list_elem_of_bind in H as (t & H & Ht%elem_of_range).
    apply list_elem_of_bind in H as (b' & H & _).
    apply list_elem_of_bind in H as (c' & H & _).
    apply list_elem_of_bind in H as (g' & H & _).
    apply list_elem_of_singleton in H. inversion H; subst. lia.
  - intros [Hs Ht].
    apply list_elem_of_bind. exists seats. split; [| apply elem_of_range; lia].
    apply list_elem_of_bind. exists time. split; [| apply elem_of_range; lia].
    apply list_elem_of_bind. exists b.
    split; [| destruct b; unfold booking_rates; repeat constructor].
    apply list_elem_of_bind. exists c.
    split; [| destruct c; unfold competitor_prices; repeat constructor].
    apply list_elem_of_bind. exists g.
    split; [| destruct g; unfold customer_segments; repeat constructor].
    apply list_elem_of_singleton. reflexivity.
Qed.

Lemma length_bind_const {A B : Type} (f : A -> list B) (k : nat) (l : list A) :
  (forall x, length (f x) = k) -> length (l ≫= f) = (length l * k)%nat.
Proof.
  intros Hf. induction l as [| x l IH]; [reflexivity |].
  rewrite bind_cons, length_app, Hf, IH. simpl. lia.
Qed.

Lemma length_states :
  length (states cfg)
  = (Z.to_nat (num_seats cfg + 1) * (Z.to_nat (time_horizon cfg + 1) * 18))%nat.
Proof.
  unfold states.
  rewrite (length_bind_const _ (Z.to_nat (time_horizon cfg + 1) * 18)).
  - unfold range. rewrite length_seqZ. reflexivity.
  - intros s. rewrite (length_bind_const _ 18).
    + unfold range. rewrite length_seqZ. reflexivity.
    + intros t. reflexivity.
Qed.

Lemma NoDup_states : NoDup (states cfg).
Proof.
  unfold states.
  apply NoDup_bind; [| | apply NoDup_seqZ].
  { intros s1 s2 [[[[s t] b] c] g] _ _ H1 H2.
    apply list_elem_of_bind in H1 as (t1 & H1 & _).
    apply list_elem_of_bind in H1 as (b1 & H1 & _).
    apply list_elem_of_bind in H1 as (c1 & H1 & _).
    apply list_elem_of_bind in H1 as (g1 & H1 & _).
    apply list_elem_of_singleton in H1.
    apply list_elem_of_bind in H2 as (t2 & H2 & _).
    apply list_elem_of_bind in H2 as (b2 & H2 & _).
    apply list_elem_of_bind in H2 as (c2 & H2 & _).
    apply list_elem_of_bind in H2 as (g2 & H2 & _).
    apply list_elem_of_singleton in H2. congruence. }
  intros s _. apply NoDup_bind; [| | apply NoDup_seqZ].
  { intros t1 t2 [[[[s' t] b] c] g] _ _ H1 H2.
    apply list_elem_of_bind in H1 as (b1 & H1 & _).
    apply list_elem_of_bind in H1 as (c1 & H1 & _).
    apply list_elem_of_bind in H1 as (g1 & H1 & _).
    apply list_elem_of_singleton in H1.
    apply list_elem_of_bind in H2 as (b2 & H2 & _).
    apply list_elem_of_bind in H2 as (c2 & H2 & _).
    apply list_elem_of_bind in H2 as (g2 & H2 & _).
    apply list_elem_of_singleton in H2. congruence. }
  intros t _. unfold booking_rates, competitor_prices, customer_segments.
  simpl.
  repeat (apply NoDup_cons; split;
          [ intros Hin;
            repeat (apply elem_of_cons in Hin as [Hin | Hin]; [congruence |]);
            inversion Hin
          | ]).
  apply NoDup_nil_2.
Qed.

(** Filling one row of the table. *)
Lemma lookup_fill_row (s : state) (acts : list Z) (Q : qtable) key :
  fold_left (fun Q a => <[(s, a) := 0%R]> Q) acts Q !! key
  = if decide (key.1 = s /\ key.2 ∈ acts) then Some 0%R else Q !! key.
Proof.
  revert Q. induction acts as [| a acts IH]; intros Q; cbn [fold_left].
  - rewrite decide_False; [reflexivity |]. intros [_ H]. inversion H.
  - rewrite IH. destruct key as [s' a']; cbn [fst snd].
    destruct (decide (s' = s /\ a' ∈ acts)) as [H | H].
    + rewrite decide_True; [reflexivity |]. destruct H. split; [| right]; auto.
    + destruct (decide ((s, a) = (s', a'))) as [Heq | Hne].
      * inversion Heq; subst. rewrite lookup_insert_eq.
        rewrite decide_True; [reflexivity |]. split; [| left]; auto.
      * rewrite lookup_insert_ne by exact Hne.
        rewrite decide_False; [reflexivity |].
        intros [-> Hin]. apply elem_of_cons in Hin as [-> | Hin]; tauto.
Qed.

Lemma lookup_fill_table (sts : list state) (acts : list Z) (Q : qtable) key :
  fold_left (fun Q s => fold_left (fun Q a => <[(s, a) := 0%R]> Q) acts Q)
            sts Q !! key
  = if decide (key.1 ∈ sts /\ key.2 ∈ acts) then Some 0%R else Q !! key.
Proof.
  revert Q. induction sts as [| s sts IH]; intros Q; cbn [fold_left].
  - rewrite decide_False; [reflexivity |]. intros [H _]. inversion H.
  - rewrite IH, lookup_fill_row.
    destruct (decide (key.1 ∈ sts /\ key.2 ∈ acts)) as [H | H].
    + rewrite decide_True; [reflexivity |]. destruct H. split; [right |]; auto.
    + destruct (decide (key.1 = s /\ key.2 ∈ acts)) as [[Heq Hin] | Hne].
      * rewrite decide_True; [reflexivity |]. rewrite Heq. split; [left |]; auto.
      * rewrite decide_False; [reflexivity |].
        intros [Hs Hin]. apply elem_of_cons in Hs as [Hs | Hs]; tauto.
Qed.

Lemma lookup_init_Q key :
  init_Q cfg !! key
  = if decide (key.1 ∈ states cfg /\ key.2 ∈ actions cfg)
    then Some 0%R else None.
Proof. unfold init_Q. rewrite lookup_fill_table, lookup_empty. reflexivity. Qed.

Lemma init_Q_dense : dense cfg (init_Q cfg).
Proof.
  intros s a Hs Ha. rewrite lookup_init_Q, decide_True by auto. eauto.
Qed.

Lemma dom_init_Q :
  dom (init_Q cfg)
  = list_to_set (s ← states cfg; a ← actions cfg; [(s, a)]).
Proof.
  apply set_eq. intros [s a].
  rewrite elem_of_dom, lookup_init_Q, elem_of_list_to_set, list_elem_of_bind.
  simpl. split.
  - case_decide as H; [| intros [? ?]; discriminate]. intros _.
    exists s. split; [| tauto].
    apply list_elem_of_bind. exists a.
    split; [apply list_elem_of_singleton; reflexivity | tauto].
  - intros (s' & H & Hs).
    apply list_elem_of_bind in H as (a' & H & Ha).
    apply list_elem_of_singleton in H. inversion H; subst.
    rewrite decide_True by auto. eauto.
Qed.

Lemma size_init_Q :
  NoDup (price_levels cfg) ->
  size (init_Q cfg) = (length (states cfg) * length (price_levels cfg))%nat.
Proof.
  intros Hnd. rewrite <- size_dom, dom_init_Q, size_list_to_set.
  - apply length_bind_const. intros s.
    rewrite (length_bind_const _ 1); [unfold actions; lia | reflexivity].
  - apply NoDup_bind; [| | apply NoDup_states].
    + intros s1 s2 [s a] _ _ H1 H2.
      apply list_elem_of_bind in H1 as (a1 & H1 & _).
      apply list_elem_of_bind in H2 as (a2 & H2 & _).
      apply list_elem_of_singleton in H1, H2. congruence.
    + intros s _. apply NoDup_bind; [| | exact Hnd].
      * intros a1 a2 y _ _ H1 H2.
        apply list_elem_of_singleton in H1, H2. congruence.
      * intros a _. apply NoDup_singleton.
Qed.

(** C4. Before any episode the table [Q] has an entry for every pair of
    an enumerated state and an action and for nothing else, that is
    [(num_seats+1) * (time_horizon+1) * 3 * 3 * 2] states times
    [|price_levels|] actions, and every entry is [0.0]. *)
Theorem init_Q_full_and_zero :
  0 <= num_seats cfg ->
  0 <= time_horizon cfg ->
  NoDup (price_levels cfg) ->
  Z.of_nat (length (states cfg))
    = (num_seats cfg + 1) * (time_horizon cfg + 1) * 3 * 3 * 2
  /\ Z.of_nat (size (init_Q cfg))
    = (num_seats cfg + 1) * (time_horizon cfg + 1) * 3 * 3 * 2
      * Z.of_nat (length (price_levels cfg))
  /\ (forall s a, s ∈ states cfg -> a ∈ price_levels cfg ->
        init_Q cfg !! (s, a) = Some 0%R)
  /\ (forall s a v, init_Q cfg !! (s, a) = Some v ->
        s ∈ states cfg /\ a ∈ price_levels cfg /\ v = 0%R).
Proof.
  intros Hns Hth Hnd.
  assert (Z.of_nat (length (states cfg))
          = (num_seats cfg + 1) * (time_horizon cfg + 1) * 3 * 3 * 2) as Hlen.
  { rewrite length_states. lia. }
  split; [exact Hlen |]. split; [| split].
  - rewrite size_init_Q by exact Hnd. rewrite Nat2Z.inj_mul, Hlen. reflexivity.
  - intros s a Hs Ha. rewrite lookup_init_Q, decide_True; auto.
  - intros s a v. rewrite lookup_init_Q. simpl.
    case_decide as H; [| discriminate]. intros [= <-]. tauto.
Qed.

End StateSpace.

(** * The error monad and the built-ins *)

Section Builtins.

Lemma bind_Ok_inv {A B : Type} (k : A -> result B) (r : result A) (b : B) :
  r ≫= k = Ok b -> exists a, r = Ok a /\ k a = Ok b.
Proof. destruct r as [a | x]; [eauto | discriminate]. Qed.

Lemma random_choice_elem {A : Type} (l : list A) (k : nat) (x : A) :
  random_choice l k = Ok x -> x ∈ l.
Proof.
  unfold random_choice.
  destruct (nth_error l (k mod length l)) as [y |] eqn:Hnth; [| discriminate].
  intros [= <-]. apply list_elem_of_In. eapply nth_error_In. exact Hnth.
Qed.

Lemma random_choice_ok {A : Type} (l : list A) (k : nat) :
  l <> [] -> exists x, random_choice l k = Ok x.
Proof.
  intros Hl. unfold random_choice.
  destruct (nth_error l (k mod length l)) as [y |] eqn:Hnth; [eauto |].
  apply nth_error_None in Hnth.
  assert (length l <> 0)%nat by (destruct l; [congruence | discriminate]).
  pose proof (Nat.mod_upper_bound k (length l)). lia.
Qed.

Lemma map_result_inv {A B : Type} (f : A -> result B) (l : list A) (bs : list B) :
  map_result f l = Ok bs -> Forall2 (fun a b => f a = Ok b) l bs.
Proof.
  revert bs. induction l as [| a l IH]; intros bs; cbn [map_result].
  - intros [= <-]. constructor.
  - intros H. apply bind_Ok_inv in H as (b & Hb & H).
    apply bind_Ok_inv in H as (bs' & Hbs & [= <-]).
    constructor; auto.
Qed.

Lemma map_result_ok {A B : Type} (f : A -> result B) (l : list A) :
  (forall a, a ∈ l -> exists b, f a = Ok b) -> exists bs, map_result f l = Ok bs.
Proof.
  induction l as [| a l IH]; intros Hf; cbn [map_result]; [eauto |].
  destruct (Hf a) as [b Hb]; [left |]. rewrite Hb.
  destruct IH as [bs Hbs]; [intros; apply Hf; right; assumption |].
  rewrite Hbs. eauto.
Qed.

Lemma fold_py_max2_spec (xs : list R) (x : R) :
  let m := fold_left py_max2 xs x in
  (m = x \/ m ∈ xs) /\ (x <= m)%R /\ (forall v, v ∈ xs -> (v <= m)%R).
Proof.
  revert x. induction xs as [| y xs IH]; intros x; cbn [fold_left].
  - split; [auto |]. split; [lra |]. intros v Hv. inversion Hv.
  - specialize (IH (py_max2 x y)). cbn zeta in IH.
    destruct IH as (Hin & Hge & Hall).
    pose proof (py_max2_ge x y) as [Hx Hy].
    split; [| split].
    + destruct Hin as [-> | Hin]; [| right; right; exact Hin].
      destruct (py_max2_cases x y) as [-> | ->]; [auto | right; left].
    + lra.
    + intros v Hv. apply elem_of_cons in Hv as [-> | Hv]; [lra | auto].
Qed.

Lemma py_max_spec (l : list R) (m : R) :
  py_max l = Ok m -> m ∈ l /\ forall v, v ∈ l -> (v <= m)%R.
Proof.
  destruct l as [| x xs]; [discriminate |]. intros [= <-].
  destruct (fold_py_max2_spec xs x) as (Hin & Hge & Hall). split.
  - destruct Hin as [-> | Hin]; [left | right; exact Hin].
  - intros v Hv. apply elem_of_cons in Hv as [-> | Hv]; auto.
Qed.

Lemma py_max_ok (l : list R) : l <> [] -> exists m, py_max l = Ok m.
Proof. destruct l; [congruence | intros _; simpl; eauto]. Qed.

Lemma filter_result_inv {A : Type} (f : A -> result R) (v : R) (l best : list A) :
  filter_result f v l = Ok best ->
  forall a, a ∈ best <-> a ∈ l /\ f a = Ok v.
Proof.
  revert best. induction l as [| a l IH]; intros best; cbn [filter_result].
  - intros [= <-] b. split; [intros H; inversion H | intros [H _]; inversion H].
  - intros H. apply bind_Ok_inv in H as (x & Hx & H).
    apply bind_Ok_inv in H as (rest & Hrest & [= <-]).
    specialize (IH rest Hrest). intros b.
    destruct (Req_dec_T x v) as [-> | Hne].
    + rewrite !elem_of_cons, IH. split.
      * intros [-> | [? ?]]; auto.
      * intros [[-> | ?] ?]; auto.
    + rewrite elem_of_cons, IH. split.
      * intros [? ?]; auto.
      * intros [[-> | ?] Hb]; [| auto]. rewrite Hx in Hb. congruence.
Qed.

Lemma filter_result_ok {A : Type} (f : A -> result R) (v : R) (l : list A) :
  (forall a, a ∈ l -> exists x, f a = Ok x) ->
  exists best, filter_result f v l = Ok best.
Proof.
  induction l as [| a l IH]; intros Hf; cbn [filter_result]; [eauto |].
  destruct (Hf a) as [x Hx]; [left |]. rewrite Hx.
  destruct IH as [rest Hrest]; [intros; apply Hf; right; assumption |].
  rewrite Hrest. simpl. eauto.
Qed.

Lemma q_get_Ok (Q : qtable) key v : q_get Q key = Ok v <-> Q !! key = Some v.
Proof.
  unfold q_get. destruct (Q !! key); split; intros H; congruence.
Qed.

Lemma fmod_range (x : R) : (0 <= py_fmod x 3 < 3)%R.
Proof.
  unfold py_fmod. destruct (base_Int_part (x / 3)) as [Hlo Hhi].
  replace x with (3 * (x / 3))%R at 1 3 by field. lra.
Qed.

Lemma py_int_range (y : R) : (0 <= y < 3)%R -> 0 <= py_int y < 3.
Proof.
  intros [Hlo Hhi]. unfold py_int. destruct (Rle_dec 0 y); [| lra].
  destruct (base_Int_part y) as [Hle Hgt]. split.
  - apply Z.lt_succ_r. apply lt_IZR. rewrite succ_IZR. lra.
  - apply lt_IZR. lra.
Qed.

Lemma get_competitor_price_level_ok cfg time fluctuation :
  time_horizon cfg <> 0 ->
  exists c, get_competitor_price_level cfg time fluctuation = Ok c.
Proof.
  intros Hth. unfold get_competitor_price_level.
  destruct (Z.eqb_spec (time_horizon cfg) 0) as [| _]; [contradiction |].
  match goal with |- context [py_int ?y] =>
    pose proof (py_int_range y (fmod_range _)) as Hi;
    generalize dependent (py_int y) end.
  intros i Hi. unfold py_index, baseline_level. cbn [length].
  assert (i = 0 \/ i = 1 \/ i = 2) as [-> | [-> | ->]] by lia;
    simpl; eauto.
Qed.

Lemma get_booking_rate_ok cfg seats_sold time_elapsed :
  time_horizon cfg <> 0 ->
  exists b, get_booking_rate cfg seats_sold time_elapsed = Ok b.
Proof.
  intros Hth. unfold get_booking_rate.
  destruct (Z.eqb_spec (time_horizon cfg) 0) as [| _]; [contradiction |].
  repeat match goal with |- context [Rlt_dec ?a ?b] =>
           destruct (Rlt_dec a b) end; eauto.
Qed.

Lemma np_binomial1_ok p u :
  (0 <= p <= 1)%R -> exists b, np_binomial1 p u = Ok b.
Proof.
  intros Hp. unfold np_binomial1.
  destruct (Rlt_dec p 0); [lra |]. destruct (Rlt_dec 1 p); [lra |]. eauto.
Qed.

End Builtins.

(** * One iteration of the episode loop *)

Section Step.

Variable cfg : config.

Lemma Forall2_elem_l {A B : Type} (P : A -> B -> Prop) l k x :
  Forall2 P l k -> x ∈ l -> exists y, y ∈ k /\ P x y.
Proof.
  induction 1 as [| a b l k Hab _ IH]; intros Hx; [inversion Hx |].
  apply elem_of_cons in Hx as [-> | Hx].
  - exists b. split; [left | exact Hab].
  - destruct (IH Hx) as (y & Hy & HP). exists y. split; [right |]; auto.
Qed.

Lemma Forall2_elem_r {A B : Type} (P : A -> B -> Prop) l k y :
  Forall2 P l k -> y ∈ k -> exists x, x ∈ l /\ P x y.
Proof.
  induction 1 as [| a b l k Hab _ IH]; intros Hy; [inversion Hy |].
  apply elem_of_cons in Hy as [-> | Hy].
  - exists a. split; [left | exact Hab].
  - destruct (IH Hy) as (x & Hx & HP). exists x. split; [right |]; auto.
Qed.

(** The greedy choice is an action whose entry is the largest of the
    row. *)
Lemma greedy_action_sound Q s pick a :
  greedy_action cfg Q s pick = Ok a ->
  a ∈ actions cfg
  /\ exists v, Q !! (s, a) = Some v
     /\ forall a', a' ∈ actions cfg ->
          exists v', Q !! (s, a') = Some v' /\ (v' <= v)%R.
Proof.
  unfold greedy_action. intros H.
  apply bind_Ok_inv in H as (q_values & Hq%map_result_inv & H).
  apply bind_Ok_inv in H as (max_q & [_ Hmax]%py_max_spec & H).
  apply bind_Ok_inv in H as (best & Hbest & H%random_choice_elem).
  apply (filter_result_inv _ _ _ _ Hbest) in H as [Ha Hv%q_get_Ok].
  split; [exact Ha |]. exists max_q. split; [exact Hv |].
  intros a' Ha'.
  destruct (Forall2_elem_l _ _ _ _ Hq Ha') as (v' & Hin & Hv'%q_get_Ok).
  exists v'. auto.
Qed.

Lemma greedy_action_ok Q s pick :
  actions cfg <> [] ->
  (forall a, a ∈ actions cfg -> is_Some (Q !! (s, a))) ->
  exists a, greedy_action cfg Q s pick = Ok a.
Proof.
  intros Hne Hrow. unfold greedy_action.
  assert (forall a, a ∈ actions cfg -> exists x, q_get Q (s, a) = Ok x) as Hget.
  { intros a Ha. destruct (Hrow a Ha) as [x Hx]. exists x. apply q_get_Ok, Hx. }
  destruct (map_result_ok _ _ Hget) as [q_values Hq]. rewrite Hq.
  pose proof (map_result_inv _ _ _ Hq) as HF. cbn [mbind result_bind].
  destruct (py_max_ok q_values) as [max_q Hmax].
  { intros ->. inversion HF; subst. congruence. }
  rewrite Hmax. cbn [mbind result_bind].
  destruct (filter_result_ok _ max_q _ Hget) as [best Hbest]. rewrite Hbest.
  cbn [mbind result_bind]. apply random_choice_ok.
  apply py_max_spec in Hmax as [Hin _].
  destruct (Forall2_elem_r _ _ _ _ HF Hin) as (a & Ha & Hv).
  assert (a ∈ best) as Hab by (apply (filter_result_inv _ _ _ _ Hbest); auto).
  intros ->. inversion Hab.
Qed.

(** Everything a successful iteration did. *)
Lemma episode_step_inv Q e d Q' e' t :
  episode_step cfg Q e d = Ok (Q', e', t) ->
  exists b c g a p (sale : bool) b' c' mfq old,
    get_booking_rate cfg (seats_sold e) (time_elapsed e) = Ok b
    /\ get_competitor_price_level cfg (time e) (fluct_state d) = Ok c
    /\ g ∈ customer_segments
    /\ a ∈ actions cfg
    /\ get_demand_probability (IZR a) g c = Ok p
    /\ np_binomial1 p (sale_u d) = Ok sale
    /\ e' = {| seats_left := if sale then seats_left e - 1 else seats_left e;
               seats_sold := if sale then seats_sold e + 1 else seats_sold e;
               time := time e - 1;
               total_reward := total_reward e + (if sale then a else 0);
               time_elapsed := time_elapsed e + 1 |}
    /\ get_booking_rate cfg (seats_sold e') (time_elapsed e') = Ok b'
    /\ get_competitor_price_level cfg (time e') (fluct_next d) = Ok c'
    /\ (mfq = 0%R
        \/ exists a', Q !! ((seats_left e', time e', b', c', g), a') = Some mfq)
    /\ Q !! ((seats_left e, time e, b, c, g), a) = Some old
    /\ Q' = <[((seats_left e, time e, b, c, g), a) :=
               (old + alpha cfg
                      * (IZR (if sale then a else 0) + gamma cfg * mfq - old))%R]> Q
    /\ t = {| tr_before := e;
              tr_state := (seats_left e, time e, b, c, g);
              tr_action := a;
              tr_reward := if sale then a else 0;
              tr_after := e';
              tr_next_state := (seats_left e', time e', b', c', g);
              tr_next_in_states :=
                bool_decide ((seats_left e', time e', b', c', g) ∈ states cfg) |}.
Proof.
  unfold episode_step. intros H.
  apply bind_Ok_inv in H as (b & Hb & H).
  apply bind_Ok_inv in H as (c & Hc & H).
  apply bind_Ok_inv in H as (g & Hg & H).
  apply bind_Ok_inv in H as (a & Ha & H).
  apply bind_Ok_inv in H as (p & Hp & H).
  apply bind_Ok_inv in H as (sale & Hsale & H).
  cbv zeta in H.
  apply bind_Ok_inv in H as (b' & Hb' & H).
  apply bind_Ok_inv in H as (c' & Hc' & H).
  apply bind_Ok_inv in H as (mfq & Hmfq & H).
  apply bind_Ok_inv in H as (old & Hold%q_get_Ok & H).
  injection H as <- <- <-.
  exists b, c, g, a, p, sale, b', c', mfq, old.
  repeat match goal with |- _ /\ _ => split end;
    try reflexivity; try assumption.
  - eapply random_choice_elem; eassumption.
  - destruct (Rlt_dec (explore_u d) (epsilon cfg)).
    + eapply random_choice_elem; eassumption.
    + apply greedy_action_sound in Ha. tauto.
  - destruct (bool_decide _); [| left; congruence].
    apply bind_Ok_inv in Hmfq as (vs & Hvs%map_result_inv & [Hin _]%py_max_spec).
    destruct (Forall2_elem_r _ _ _ _ Hvs Hin) as (a' & _ & Hv%q_get_Ok).
    right. exists a'. exact Hv.
Qed.

(** With usable prices and a dense table, an iteration entered with
    [0 < time < time_horizon] and [0 < seats_left <= num_seats] raises
    nothing. *)
Lemma episode_step_ok Q e d :
  prices_ok cfg ->
  dense cfg Q ->
  0 < time e < time_horizon cfg ->
  0 < seats_left e <= num_seats cfg ->
  exists r, episode_step cfg Q e d = Ok r.
Proof.
  intros [Hne Hpos] Hdense Htime Hseats. change (actions cfg <> []) in Hne.
  assert (time_horizon cfg <> 0) as Hth by lia.
  unfold episode_step.
  destruct (get_booking_rate_ok cfg (seats_sold e) (time_elapsed e) Hth)
    as [b ->].
  destruct (get_competitor_price_level_ok cfg (time e) (fluct_state d) Hth)
    as [c ->].
  destruct (random_choice_ok customer_segments (segment_pick d)) as [g ->];
    [discriminate |].
  cbn [mbind result_bind].
  set (s := (seats_left e, time e, b, c, g)).
  assert (s ∈ states cfg) as Hs by (apply elem_of_states; lia).
  assert (exists a,
    (if Rlt_dec (explore_u d) (epsilon cfg)
     then random_choice (actions cfg) (action_pick d)
     else greedy_action cfg Q s (action_pick d)) = Ok a /\ a ∈ actions cfg)
    as (a & -> & Ha).
  { destruct (Rlt_dec _ _).
    - destruct (random_choice_ok (actions cfg) (action_pick d) Hne) as [a Ha].
      exists a. split; [exact Ha | eapply random_choice_elem; exact Ha].
    - destruct (greedy_action_ok Q s (action_pick d) Hne) as [a Ha];
        [intros; apply Hdense; assumption |].
      exists a. split; [exact Ha | apply greedy_action_sound in Ha; tauto]. }
  cbn [mbind result_bind].
  assert (0 <= IZR a)%R as Hprice.
  { apply IZR_le. rewrite Forall_forall in Hpos. apply Hpos, Ha. }
  rewrite (get_demand_probability_eq (IZR a) g c Hprice).
  cbn [mbind result_bind].
  match goal with |- context [np_binomial1 ?p _] =>
    destruct (np_binomial1_ok p (sale_u d)) as [sale ->];
      [pose proof (clamp_range (demand_prob (IZR a) g c)); lra |] end.
  cbn [mbind result_bind]. cbv zeta. cbn [seats_sold time_elapsed time seats_left].
  match goal with |- context [get_booking_rate cfg ?x ?y] =>
    destruct (get_booking_rate_ok cfg x y Hth) as [b' ->] end.
  destruct (get_competitor_price_level_ok cfg (time e - 1) (fluct_next d) Hth)
    as [c' ->].
  cbn [mbind result_bind].
  match goal with |- context [bool_decide (?x ∈ states cfg)] =>
    set (s' := x) end.
  assert (exists m,
    (if bool_decide (s' ∈ states cfg)
     then map_result (fun a0 => q_get Q (s', a0)) (actions cfg)
          ≫= (fun future_q_values => py_max future_q_values)
     else Ok 0%R) = Ok m) as [m ->].
  { destruct (bool_decide (s' ∈ states cfg)) eqn:Hk; [| eauto].
    apply bool_decide_eq_true in Hk.
    destruct (map_result_ok (fun a0 => q_get Q (s', a0)) (actions cfg))
      as [vs Hvs].
    { intros a0 Ha0. destruct (Hdense s' a0 Hk Ha0) as [x Hx].
      exists x. apply q_get_Ok, Hx. }
    rewrite Hvs. cbn [mbind result_bind]. apply py_max_ok.
    apply map_result_inv in Hvs. intros ->. inversion Hvs; subst. congruence. }
  cbn [mbind result_bind].
  destruct (Hdense s a Hs Ha) as [old Hold].
  apply q_get_Ok in Hold. subst s. rewrite Hold.
  cbn [mbind result_bind]. eauto.
Qed.

End Step.

(** * The episode loop and the training loop *)

Section Loops.

Variable cfg : config.

Lemma episode_step_time Q e d Q' e' t :
  episode_step cfg Q e d = Ok (Q', e', t) ->
  time e' = time e - 1 /\ tr_before t = e /\ tr_after t = e'.
Proof.
  intros H. apply episode_step_inv in H
    as (b & c & g & a & p & sale & b' & c' & mfq & old & H).
  destruct H as (_ & _ & _ & _ & _ & _ & -> & _ & _ & _ & _ & _ & ->).
  auto.
Qed.

(** The loop needs at most [time] iterations, whatever it meets. *)
Lemma episode_loop_terminates fuel draws i Q e trace :
  (Z.to_nat (time e) <= fuel)%nat ->
  exists r, episode_loop cfg fuel draws i Q e trace = Some r.
Proof.
  revert i Q e trace.
  induction fuel as [| fuel IH]; intros i Q e trace Hfuel; cbn [episode_loop].
  - destruct (Z.ltb_spec 0 (time e)); [lia | simpl; eauto].
  - destruct ((0 <? time e) && (0 <? seats_left e)); [| eauto].
    destruct (episode_step cfg Q e (draws i)) as [[[Q' e'] t] | x] eqn:Hstep;
      [| eauto].
    apply IH. apply episode_step_time in Hstep as [-> _]. lia.
Qed.

(** Each iteration appends one transition and takes one unit of [time]. *)
Lemma episode_loop_length fuel draws i Q e trace Q' e' trace' :
  episode_loop cfg fuel draws i Q e trace = Some (Ok (Q', e', trace')) ->
  Z.of_nat (length trace') + time e' = Z.of_nat (length trace) + time e
  /\ (0 <= time e -> 0 <= time e').
Proof.
  revert i Q e trace.
  induction fuel as [| fuel IH]; intros i Q e trace; cbn [episode_loop].
  - destruct ((0 <? time e) && (0 <? seats_left e)); [discriminate |].
    intros [= <- <- <-]. auto.
  - destruct ((0 <? time e) && (0 <? seats_left e)) eqn:Hcond;
      [| intros [= <- <- <-]; auto].
    apply andb_true_iff in Hcond as [Ht%Z.ltb_lt _].
    destruct (episode_step cfg Q e (draws i)) as [[[Q1 e1] t] | x] eqn:Hstep;
      [| discriminate].
    intros H. apply IH in H as [Hlen Hpos].
    apply episode_step_time in Hstep as [Htime _].
    rewrite length_app in Hlen. cbn [length] in Hlen. lia.
Qed.

Section Invariant.

(** An invariant of the table, an invariant of the episode variables and
    a property of transitions that every iteration entered under the
    loop condition establishes. *)
Variable IQ : qtable -> Prop.
Variable IE : episode -> Prop.
Variable PT : transition -> Prop.

Hypothesis step_keeps : forall Q e d Q' e' t,
  IQ Q -> IE e -> 0 < time e -> 0 < seats_left e ->
  episode_step cfg Q e d = Ok (Q', e', t) ->
  IQ Q' /\ IE e' /\ PT t.

Lemma episode_loop_inv fuel draws i Q e trace Q' e' trace' :
  IQ Q -> IE e -> Forall PT trace ->
  episode_loop cfg fuel draws i Q e trace = Some (Ok (Q', e', trace')) ->
  IQ Q' /\ IE e' /\ Forall PT trace'.
Proof.
  revert i Q e trace.
  induction fuel as [| fuel IH]; intros i Q e trace HQ HE HT;
    cbn [episode_loop].
  - destruct ((0 <? time e) && (0 <? seats_left e)); [discriminate |].
    intros [= <- <- <-]. auto.
  - destruct ((0 <? time e) && (0 <? seats_left e)) eqn:Hcond;
      [| intros [= <- <- <-]; auto].
    apply andb_true_iff in Hcond as [Ht%Z.ltb_lt Hs%Z.ltb_lt].
    destruct (episode_step cfg Q e (draws i)) as [[[Q1 e1] t] | x] eqn:Hstep;
      [| discriminate].
    destruct (step_keeps _ _ _ _ _ _ HQ HE Ht Hs Hstep) as (HQ1 & HE1 & HPt).
    apply IH; auto. apply Forall_app. split; [exact HT |].
    constructor; [exact HPt | constructor].
Qed.

End Invariant.

Section TrainInvariant.

(** An invariant of the table and a property of logged episodes that
    every episode establishes. *)
Variable IQ : qtable -> Prop.
Variable PE : episode * list transition -> Prop.

Hypothesis episode_keeps : forall fuel d Q Q' e trace,
  IQ Q ->
  run_episode cfg fuel d Q = Some (Ok (Q', e, trace)) ->
  IQ Q' /\ PE (e, trace).

Lemma train_from_inv fuel draws k n Q log Q' log' :
  IQ Q -> Forall PE log ->
  train_from cfg fuel draws k n Q log = Some (Ok (Q', log')) ->
  IQ Q' /\ Forall PE log' /\ length log' = (length log + n)%nat.
Proof.
  revert k Q log.
  induction n as [| n IH]; intros k Q log HQ Hlog; cbn [train_from].
  - intros [= <- <-]. auto.
  - destruct (run_episode cfg fuel (draws k) Q)
      as [[[[Q1 e1] trace1] | x] |] eqn:Hrun; try discriminate.
    intros H.
    destruct (episode_keeps _ _ _ _ _ _ HQ Hrun) as [HQ1 HPE].
    apply IH in H as (HQ' & Hlog' & Hlen); auto.
    + split; [exact HQ' |]. split; [exact Hlog' |].
      rewrite Hlen, length_app. simpl. lia.
    + apply Forall_app. split; [exact Hlog |].
      constructor; [exact HPE | constructor].
Qed.

End TrainInvariant.

(** The training loop always comes to an end when each episode may take
    [time_horizon - 1] iterations. *)
Lemma train_from_terminates fuel draws k n Q log :
  (Z.to_nat (time_horizon cfg - 1) <= fuel)%nat ->
  exists r, train_from cfg fuel draws k n Q log = Some r.
Proof.
  intros Hfuel. revert k Q log.
  induction n as [| n IH]; intros k Q log; cbn [train_from]; [eauto |].
  destruct (episode_loop_terminates fuel (draws k) 0 Q (episode_start cfg) [])
    as [r Hr]; [exact Hfuel |].
  unfold run_episode. rewrite Hr.
  destruct r as [[[Q1 e1] trace1] | x]; [apply IH | eauto].
Qed.

End Loops.

(** * Invariants of training *)

Section Training.

Variable cfg : config.

Lemma dense_insert Q key v : dense cfg Q -> dense cfg (<[key := v]> Q).
Proof.
  intros Hd s a Hs Ha. destruct (decide (key = (s, a))) as [-> | Hne].
  - rewrite lookup_insert_eq. eauto.
  - rewrite lookup_insert_ne by exact Hne. auto.
Qed.

(** An iteration entered under the loop condition keeps the table dense and
    the counters consistent, and its [next_state] is enumerated. *)
Lemma episode_step_keeps Q e d Q' e' t :
  dense cfg Q -> episode_inv cfg e -> 0 < time e -> 0 < seats_left e ->
  episode_step cfg Q e d = Ok (Q', e', t) ->
  dense cfg Q' /\ episode_inv cfg e' /\ transition_ok cfg t.
Proof.
  intros Hd (Hsum & Hsold & Htime) Ht Hs H.
  apply episode_step_inv in H
    as (b & c & g & a & p & sale & b' & c' & mfq & old & H).
  destruct H as (_ & _ & _ & _ & _ & _ & -> & _ & _ & _ & _ & -> & ->).
  split; [apply dense_insert, Hd |].
  unfold episode_inv, transition_ok, seats_consistent, seats_step.
  cbn [tr_before tr_after tr_next_state tr_next_in_states
       seats_left seats_sold time].
  rewrite bool_decide_eq_true, elem_of_states.
  destruct sale; repeat split; try lia; auto.
Qed.

(** With usable prices, a dense table and consistent counters the loop
    neither raises nor runs out of fuel. *)
Lemma episode_loop_ok fuel draws i Q e trace :
  prices_ok cfg -> dense cfg Q -> episode_inv cfg e ->
  (Z.to_nat (time e) <= fuel)%nat ->
  exists res, episode_loop cfg fuel draws i Q e trace = Some (Ok res).
Proof.
  intros Hp. revert i Q e trace.
  induction fuel as [| fuel IH]; intros i Q e trace Hd He Hfuel;
    cbn [episode_loop].
  - destruct (Z.ltb_spec 0 (time e)); [lia | simpl; eauto].
  - destruct ((0 <? time e) && (0 <? seats_left e)) eqn:Hcond; [| eauto].
    apply andb_true_iff in Hcond as [Ht%Z.ltb_lt Hs%Z.ltb_lt].
    destruct (episode_step_ok cfg Q e (draws i) Hp Hd) as [[[Q1 e1] t] Hstep].
    { destruct He as (_ & _ & ?). lia. }
    { destruct He as (? & ? & _). lia. }
    rewrite Hstep.
    destruct (episode_step_keeps _ _ _ _ _ _ Hd He Ht Hs Hstep) as (Hd1 & He1 & _).
    apply IH; auto.
    apply episode_step_time in Hstep as [-> _]. lia.
Qed.

Lemma episode_start_inv : episode_inv cfg (episode_start cfg).
Proof. unfold episode_inv, episode_start; simpl. lia. Qed.

Lemma run_episode_ok fuel d Q :
  prices_ok cfg -> dense cfg Q -> enough_fuel cfg fuel ->
  exists res, run_episode cfg fuel d Q = Some (Ok res).
Proof.
  intros Hp Hd Hfuel. unfold run_episode.
  apply episode_loop_ok; auto using episode_start_inv.
Qed.

Lemma run_episode_keeps fuel d Q Q' e trace :
  dense cfg Q ->
  run_episode cfg fuel d Q = Some (Ok (Q', e, trace)) ->
  dense cfg Q' /\ episode_inv cfg e /\ Forall (transition_ok cfg) trace.
Proof.
  intros Hd Hrun. unfold run_episode in Hrun.
  eapply (episode_loop_inv cfg (dense cfg) (episode_inv cfg) (transition_ok cfg)).
  - intros. eapply episode_step_keeps; eauto.
  - exact Hd.
  - apply episode_start_inv.
  - apply Forall_nil_2.
  - exact Hrun.
Qed.

Lemma run_episode_length fuel d Q Q' e trace :
  1 <= time_horizon cfg ->
  run_episode cfg fuel d Q = Some (Ok (Q', e, trace)) ->
  Z.of_nat (length trace) <= time_horizon cfg - 1.
Proof.
  intros Hth Hrun. unfold run_episode in Hrun.
  apply episode_loop_length in Hrun as [Hlen Hpos].
  cbn [episode_start time length] in Hlen, Hpos. lia.
Qed.

Lemma train_from_ok fuel draws k n Q log :
  prices_ok cfg -> dense cfg Q -> enough_fuel cfg fuel ->
  exists res, train_from cfg fuel draws k n Q log = Some (Ok res).
Proof.
  intros Hp Hd Hfuel. revert k Q log Hd.
  induction n as [| n IH]; intros k Q log Hd; cbn [train_from]; [eauto |].
  destruct (run_episode_ok fuel (draws k) Q Hp Hd Hfuel) as [[[Q1 e1] t1] Hrun].
  rewrite Hrun. apply IH.
  apply run_episode_keeps in Hrun; tauto.
Qed.

(** The whole training run from the zero table: it succeeds, logs one
    entry per episode, keeps the table dense, and every logged episode is
    made of good transitions. *)
Lemma train_ok fuel draws :
  prices_ok cfg -> enough_fuel cfg fuel ->
  exists Q log,
    train cfg fuel draws (init_Q cfg) = Some (Ok (Q, log))
    /\ dense cfg Q
    /\ length log = episodes cfg
    /\ Forall (fun ep => episode_inv cfg ep.1
                         /\ Forall (transition_ok cfg) ep.2) log.
Proof.
  intros Hp Hfuel. unfold train.
  destruct (train_from_ok fuel draws 0 (episodes cfg) (init_Q cfg) [] Hp
              (init_Q_dense cfg) Hfuel) as [[Q log] Htrain].
  exists Q, log. split; [exact Htrain |].
  eapply (train_from_inv cfg (dense cfg)
            (fun ep => episode_inv cfg ep.1 /\ Forall (transition_ok cfg) ep.2))
    in Htrain.
  - simpl in Htrain. tauto.
  - intros fuel' d Q0 Q1 e trace Hd Hrun.
    apply run_episode_keeps in Hrun; simpl; tauto.
  - apply init_Q_dense.
  - apply Forall_nil_2.
Qed.

(** ** Bounds on the action values *)

Lemma max_price_nonneg : 0 <= max_price cfg.
Proof.
  unfold max_price. induction (price_levels cfg) as [| p l IH]; simpl; lia.
Qed.

Lemma le_max_price a : a ∈ price_levels cfg -> a <= max_price cfg.
Proof.
  unfold max_price. induction (price_levels cfg) as [| p l IH]; intros Ha.
  - inversion Ha.
  - apply elem_of_cons in Ha as [-> | Ha]; simpl; [lia |].
    specialize (IH Ha). lia.
Qed.

Section Bounded.

Hypothesis gamma_range : (0 <= gamma cfg < 1)%R.
Hypothesis alpha_range : (0 <= alpha cfg <= 1)%R.

Lemma q_bound_nonneg : (0 <= q_bound cfg)%R.
Proof.
  unfold q_bound. pose proof max_price_nonneg as H. apply IZR_le in H.
  apply Rmult_le_pos; [exact H |]. left. apply Rinv_0_lt_compat. lra.
Qed.

(** [reward + gamma * max_future_q] does not leave the interval. *)
Lemma target_bounded (r m : R) :
  (0 <= r <= IZR (max_price cfg))%R -> (0 <= m <= q_bound cfg)%R ->
  (0 <= r + gamma cfg * m <= q_bound cfg)%R.
Proof.
  intros Hr Hm. split; [nra |].
  assert (q_bound cfg * (1 - gamma cfg) = IZR (max_price cfg))%R as Hb.
  { unfold q_bound. field. lra. }
  nra.
Qed.

(** The update is a convex combination of the old value and the target. *)
Lemma update_bounded (old target : R) :
  (0 <= old <= q_bound cfg)%R -> (0 <= target <= q_bound cfg)%R ->
  (0 <= old + alpha cfg * (target - old) <= q_bound cfg)%R.
Proof. intros Ho Ht. split; nra. Qed.

Lemma init_Q_bounded : q_bounded cfg (init_Q cfg).
Proof.
  intros key v. rewrite lookup_init_Q. case_decide; [| discriminate].
  intros [= <-]. pose proof q_bound_nonneg. lra.
Qed.

Lemma episode_step_bounded Q e d Q' e' t :
  q_bounded cfg Q ->
  episode_step cfg Q e d = Ok (Q', e', t) ->
  q_bounded cfg Q'.
Proof.
  intros Hb H.
  apply episode_step_inv in H
    as (b & c & g & a & p & sale & b' & c' & mfq & old & H).
  destruct H as (_ & _ & _ & Ha & Hp & _ & _ & _ & _ & Hmfq & Hold & -> & _).
  assert (0 <= IZR a <= IZR (max_price cfg))%R as Hprice.
  { split; [| apply IZR_le, le_max_price, Ha].
    unfold get_demand_probability in Hp.
    destruct (Rlt_dec (IZR a) 0); [discriminate | lra]. }
  assert (0 <= IZR (if sale then a else 0) <= IZR (max_price cfg))%R as Hr.
  { destruct sale; [exact Hprice | lra]. }
  assert (0 <= mfq <= q_bound cfg)%R as Hm.
  { destruct Hmfq as [-> | [a' Ha']]; [pose proof q_bound_nonneg; lra |].
    eapply Hb, Ha'. }
  pose proof (Hb _ _ Hold) as Ho.
  intros key v. destruct (decide (((seats_left e, time e, b, c, g), a) = key))
    as [<- | Hne].
  - rewrite lookup_insert_eq. intros [= <-].
    replace (IZR (if sale then a else 0) + gamma cfg * mfq - old)%R
      with ((IZR (if sale then a else 0) + gamma cfg * mfq) - old)%R by ring.
    apply update_bounded; [exact Ho | apply target_bounded; assumption].
  - rewrite lookup_insert_ne by exact Hne. apply Hb.
Qed.

Lemma run_episode_bounded fuel d Q Q' e trace :
  q_bounded cfg Q ->
  run_episode cfg fuel d Q = Some (Ok (Q', e, trace)) ->
  q_bounded cfg Q'.
Proof.
  intros Hb Hrun. unfold run_episode in Hrun.
  eapply (episode_loop_inv cfg (q_bounded cfg) (fun _ => True) (fun _ => True))
    in Hrun; try tauto; try apply Forall_nil_2.
  intros. split; [eapply episode_step_bounded; eauto | tauto].
Qed.

Lemma train_bounded fuel draws Q log :
  train cfg fuel draws (init_Q cfg) = Some (Ok (Q, log)) ->
  q_bounded cfg Q.
Proof.
  unfold train. intros Htrain.
  eapply (train_from_inv cfg (q_bounded cfg) (fun _ => True)) in Htrain;
    try tauto; try apply Forall_nil_2; try apply init_Q_bounded.
  intros fuel' d Q0 Q1 e trace Hb Hrun.
  split; [eapply run_episode_bounded; eauto | exact I].
Qed.

End Bounded.

End Training.

(** * Policy extraction and the whole program *)

Section Policy.

Variable cfg : config.

Lemma greedy_action_argmax Q s pick a :
  greedy_action cfg Q s pick = Ok a -> is_argmax cfg Q s a.
Proof. apply greedy_action_sound. Qed.

Lemma extract_policy_spec (Q : qtable) (picks : nat -> nat) (i : nat)
    (l : list state) (pol : policy) :
  actions cfg <> [] ->
  (forall s a, s ∈ l -> a ∈ actions cfg -> is_Some (Q !! (s, a))) ->
  exists pol',
    extract_policy cfg Q picks i l pol = Ok pol'
    /\ (forall s, s ∈ l -> exists a, pol' !! s = Some a /\ is_argmax cfg Q s a)
    /\ (forall s, s ∉ l -> pol' !! s = pol !! s).
Proof.
  intros Hne. revert i pol.
  induction l as [| s l IH]; intros i pol Hrows; cbn [extract_policy].
  - exists pol. split; [reflexivity |]. split; [| reflexivity].
    intros s Hs. inversion Hs.
  - destruct (greedy_action_ok cfg Q s (picks i) Hne) as [a Ha].
    { intros a Ha. apply Hrows; [left | exact Ha]. }
    rewrite Ha. cbn [mbind result_bind].
    destruct (IH (S i) (<[s := a]> pol)) as (pol' & Hrun & Hin & Hout).
    { intros s' a' Hs' Ha'. apply Hrows; [right |]; assumption. }
    exists pol'. split; [exact Hrun |]. split.
    + intros s' Hs'. destruct (decide (s' ∈ l)) as [Hl | Hl]; [auto |].
      apply elem_of_cons in Hs' as [-> | Hs']; [| contradiction].
      exists a. rewrite (Hout s Hl), lookup_insert_eq.
      split; [reflexivity | apply greedy_action_argmax in Ha; exact Ha].
    + intros s' Hs'. apply not_elem_of_cons in Hs' as [Hne' Hl].
      rewrite (Hout s' Hl). apply lookup_insert_ne. congruence.
Qed.

(** With usable prices the script runs to the end, and its policy is
    greedy for its final table. *)
Lemma program_ok fuel draws picks :
  prices_ok cfg -> enough_fuel cfg fuel ->
  exists Q pol,
    program cfg fuel draws picks = Some (Ok (Q, pol))
    /\ (forall s, s ∈ states cfg ->
          exists a, pol !! s = Some a /\ is_argmax cfg Q s a)
    /\ (forall s, s ∉ states cfg -> pol !! s = None).
Proof.
  intros Hp Hfuel. unfold program, state_space_builder.
  destruct (train_ok cfg fuel draws Hp Hfuel) as (Q & log & -> & Hd & _).
  destruct (extract_policy_spec Q picks 0 (states cfg) ∅) as (pol & -> & Hin & Hout).
  { destruct Hp as [Hne _]. exact Hne. }
  { intros s a Hs Ha. apply Hd; assumption. }
  exists Q, pol. cbn [mbind result_bind]. split; [reflexivity |].
  split; [exact Hin |]. intros s Hs. rewrite (Hout s Hs). apply lookup_empty.
Qed.

End Policy.

(** * The claims about the learner *)

(** C2. In every episode of the training loop, for every sequence of random
    draws, the [next_state] assembled after the time decrement is an
    enumerated state: its [seats_left] is in [[0, num_seats]], its [time] in
    [[0, time_horizon]], and its three other fields are members of their
    enumerations by their types. The test [next_state in states] of line 150
    therefore never fails and [max_future_q = 0] is never taken. *)
Theorem next_state_always_enumerated cfg fuel draws :
  prices_ok cfg -> enough_fuel cfg fuel ->
  exists Q log,
    train cfg fuel draws (init_Q cfg) = Some (Ok (Q, log))
    /\ length log = episodes cfg
    /\ Forall (fun ep =>
         Forall (fun t =>
           tr_next_state t ∈ states cfg
           /\ tr_next_in_states t = true
           /\ (0 <= (tr_next_state t).1.1.1.1 <= num_seats cfg)
           /\ (0 <= (tr_next_state t).1.1.1.2 <= time_horizon cfg)) ep.2) log.
Proof.
  intros Hp Hfuel.
  destruct (train_ok cfg fuel draws Hp Hfuel) as (Q & log & Htrain & _ & Hlen & Hlog).
  exists Q, log. split; [exact Htrain |]. split; [exact Hlen |].
  eapply Forall_impl; [exact Hlog |]. intros [e trace] [_ Htrace]. simpl in *.
  eapply Forall_impl; [exact Htrace |]. intros t (_ & _ & _ & Hin & Hflag).
  split; [exact Hin |]. split; [exact Hflag |].
  destruct (tr_next_state t) as [[[[s tm] b] c] g]. simpl.
  apply elem_of_states in Hin. exact Hin.
Qed.

(** C5. The Policy Extractor gives every enumerated state exactly one
    action, and whatever the tie-break draws are, that action has the
    largest entry of the state's row in the final table. *)
Theorem policy_is_argmax cfg fuel draws picks :
  prices_ok cfg -> enough_fuel cfg fuel ->
  exists Q pol,
    program cfg fuel draws picks = Some (Ok (Q, pol))
    /\ (forall s, s ∈ states cfg ->
          exists a, pol !! s = Some a
            /\ a ∈ price_levels cfg
            /\ exists v, Q !! (s, a) = Some v
               /\ forall a', a' ∈ price_levels cfg ->
                    exists v', Q !! (s, a') = Some v' /\ (v' <= v)%R)
    /\ (forall s, s ∉ states cfg -> pol !! s = None).
Proof.
  intros Hp Hfuel.
  destruct (program_ok cfg fuel draws picks Hp Hfuel) as (Q & pol & Hrun & Hin & Hout).
  exists Q, pol. split; [exact Hrun |]. split; [| exact Hout].
  intros s Hs. destruct (Hin s Hs) as (a & Ha & Hmax).
  exists a. split; [exact Ha | exact Hmax].
Qed.

(** C6. With [0 <= gamma < 1] and [0 <= alpha <= 1] (rewards are 0 or the
    price charged, hence at most the largest price level), every entry of
    [Q] stays in [[0, max_price / (1 - gamma)]]: it does initially, every
    update keeps it so, and so it is after any number of episodes. *)
Theorem q_values_bounded cfg :
  (0 <= gamma cfg < 1)%R -> (0 <= alpha cfg <= 1)%R ->
  q_bounded cfg (init_Q cfg)
  /\ (forall Q e d Q' e' t,
        q_bounded cfg Q -> episode_step cfg Q e d = Ok (Q', e', t) ->
        q_bounded cfg Q')
  /\ (forall fuel draws Q log,
        train cfg fuel draws (init_Q cfg) = Some (Ok (Q, log)) ->
        q_bounded cfg Q)
  /\ (forall fuel draws,
        prices_ok cfg -> enough_fuel cfg fuel ->
        exists Q log,
          train cfg fuel draws (init_Q cfg) = Some (Ok (Q, log))
          /\ forall key v, Q !! key = Some v ->
               (0 <= v <= IZR (max_price cfg) / (1 - gamma cfg))%R).
Proof.
  intros Hg Ha. split; [apply init_Q_bounded; assumption |].
  split; [intros; eapply episode_step_bounded; eauto |].
  split; [intros; eapply train_bounded; eauto |].
  intros fuel draws Hp Hfuel.
  destruct (train_ok cfg fuel draws Hp Hfuel) as (Q & log & Htrain & _).
  exists Q, log. split; [exact Htrain |].
  exact (train_bounded cfg Hg Ha fuel draws Q log Htrain).
Qed.

(** C7. With [time_horizon >= 1], whatever is drawn, the [while] loop of an
    episode ends within [time_horizon - 1] iterations, so that the training
    run ends; it logs [episodes] episodes of at most [time_horizon - 1]
    iterations each, and with usable prices it ends without an exception. *)
Theorem training_terminates cfg fuel draws :
  1 <= time_horizon cfg -> enough_fuel cfg fuel ->
  (forall d Q, exists r,
     run_episode cfg (Z.to_nat (time_horizon cfg - 1)) d Q = Some r)
  /\ (exists r, train cfg fuel draws (init_Q cfg) = Some r)
  /\ (forall Q log,
        train cfg fuel draws (init_Q cfg) = Some (Ok (Q, log)) ->
        length log = episodes cfg
        /\ Forall (fun ep => Z.of_nat (length ep.2) <= time_horizon cfg - 1) log)
  /\ (prices_ok cfg ->
      exists Q log, train cfg fuel draws (init_Q cfg) = Some (Ok (Q, log))).
Proof.
  intros Hth Hfuel. split; [| split; [| split]].
  - intros d Q. apply episode_loop_terminates. simpl. lia.
  - apply train_from_terminates. exact Hfuel.
  - intros Q log Htrain. unfold train in Htrain.
    eapply (train_from_inv cfg (fun _ => True)
              (fun ep => Z.of_nat (length ep.2) <= time_horizon cfg - 1))
      in Htrain; [simpl in Htrain; tauto | | exact I | apply Forall_nil_2].
    intros fuel' d Q0 Q1 e trace _ Hrun. split; [exact I |].
    simpl. eapply run_episode_length; eauto.
  - intros Hp.
    destruct (train_ok cfg fuel draws Hp Hfuel) as (Q & log & Htrain & _).
    eauto.
Qed.

(** C9, as amended. The State Space Builder validates nothing and cannot
    fail: for every configuration, valid or not, it returns the enumeration
    of the states with [0 <= seats_left <= num_seats] and
    [0 <= time <= time_horizon] (none when a bound is negative), the price
    levels as actions, and the table that is [0.0] exactly on their
    product. No configuration error exists: with usable prices the script
    runs to its end whatever [num_seats] and [time_horizon] are. *)
Theorem builder_never_fails cfg :
  exists sts acts Q,
    state_space_builder cfg = Ok (sts, acts, Q)
    /\ acts = price_levels cfg
    /\ (forall seats time b c g,
          (seats, time, b, c, g) ∈ sts
          <-> 0 <= seats <= num_seats cfg /\ 0 <= time <= time_horizon cfg)
    /\ (forall s a,
          Q !! (s, a) = if decide (s ∈ sts /\ a ∈ acts) then Some 0%R else None)
    /\ (prices_ok cfg -> forall fuel draws picks,
          enough_fuel cfg fuel ->
          exists r, program cfg fuel draws picks = Some (Ok r)).
Proof.
  exists (states cfg), (actions cfg), (init_Q cfg).
  split; [reflexivity |]. split; [reflexivity |].
  split; [apply elem_of_states |].
  split; [intros s a; apply (lookup_init_Q cfg (s, a)) |].
  intros Hp fuel draws picks Hfuel.
  destruct (program_ok cfg fuel draws picks Hp Hfuel) as (Q & pol & Hrun & _).
  eauto.
Qed.

(** C10. In every episode [seats_sold + seats_left = num_seats] with both
    counters in [[0, num_seats]], at the start, on entry to and on exit
    from every iteration and at the end; an iteration either moves one seat
    from [seats_left] to [seats_sold] or changes neither. *)
Theorem seats_accounting cfg fuel draws :
  prices_ok cfg -> 0 <= num_seats cfg -> enough_fuel cfg fuel ->
  seats_consistent cfg (episode_start cfg)
  /\ exists Q log,
       train cfg fuel draws (init_Q cfg) = Some (Ok (Q, log))
       /\ length log = episodes cfg
       /\ Forall (fun ep =>
            seats_sold ep.1 + seats_left ep.1 = num_seats cfg
            /\ Forall (fun t =>
                 seats_consistent cfg (tr_before t)
                 /\ seats_consistent cfg (tr_after t)
                 /\ seats_step t) ep.2) log.
Proof.
  intros Hp Hns Hfuel. split.
  { unfold seats_consistent, episode_start; simpl. lia. }
  destruct (train_ok cfg fuel draws Hp Hfuel) as (Q & log & Htrain & _ & Hlen & Hlog).
  exists Q, log. split; [exact Htrain |]. split; [exact Hlen |].
  eapply Forall_impl; [exact Hlog |]. intros [e trace] [He Htrace]. simpl in *.
  split; [destruct He as (? & _); assumption |].
  eapply Forall_impl; [exact Htrace |]. intros t (? & ? & ? & _). auto.
Qed.

(** * Concrete runs *)

Example default_price_levels :
  price_levels default_config
  = [100; 120; 140; 160; 180; 200; 220; 240; 260; 280; 300; 320; 340; 360;
     380; 400; 420; 440; 460; 480; 500; 520; 540; 560; 580; 600; 620; 640].
Proof. reflexivity. Qed.

(** The boundaries quoted in section 8 of the specification: with 100 seats
    and a horizon of 12, a rate of 2 is Low, 3 is Medium and 6 is High. *)
Example booking_rate_samples :
  get_booking_rate default_config 2 0 = Ok Low
  /\ get_booking_rate default_config 3 0 = Ok Medium
  /\ get_booking_rate default_config 6 0 = Ok High.
Proof.
  unfold get_booking_rate, rate, low_threshold, medium_threshold,
    high_threshold, time_factor. simpl. rewrite !mult_IZR.
  repeat split;
    repeat match goal with |- context [Rlt_dec ?a ?b] =>
             destruct (Rlt_dec a b); try lra end; reflexivity.
Qed.

Lemma get_booking_rate_three_outcomes_witness :
  time_horizon default_config <> 0
  /\ 0 <= 3 /\ 0 <= 2
  /\ exists b, get_booking_rate default_config 3 2 = Ok b
       /\ (b = High <-> (medium_threshold default_config <= rate 3 2)%R)
       /\ (b = Low <-> (rate 3 2 < low_threshold default_config)%R)
       /\ (b = Medium <->
           (low_threshold default_config <= rate 3 2
                                         < medium_threshold default_config)%R).
Proof.
  assert (time_horizon default_config <> 0) as Hth by (simpl; lia).
  assert (0 <= 3) as H3 by lia. assert (0 <= 2) as H2 by lia.
  split; [exact Hth |]. split; [exact H3 |]. split; [exact H2 |].
  apply (get_booking_rate_three_outcomes default_config 3 2 Hth H3 H2).
Defined.

Lemma get_demand_probability_range_witness :
  (0 <= 100)%R
  /\ exists p, get_demand_probability 100 Economy Medium = Ok p
       /\ (1 / 10 <= p <= 1)%R.
Proof.
  assert (0 <= 100)%R as H by lra.
  split; [exact H |].
  apply (get_demand_probability_range 100 Economy Medium H).
Defined.

Lemma get_demand_probability_decreasing_witness :
  (0 <= 100 < 120)%R
  /\ exists d1 d2,
       get_demand_probability 100 Economy Low = Ok d1
       /\ get_demand_probability 120 Economy Low = Ok d2
       /\ (d2 <= d1)%R
       /\ (d1 <> (1 / 10)%R -> d1 <> 1%R -> d2 <> (1 / 10)%R -> d2 <> 1%R ->
           (d2 < d1)%R).
Proof.
  assert (0 <= 100 < 120)%R as H by lra.
  split; [exact H |].
  apply (get_demand_probability_decreasing 100 120 Economy Low H).
Defined.

Lemma init_Q_full_and_zero_witness :
  0 <= num_seats default_config
  /\ 0 <= time_horizon default_config
  /\ NoDup (price_levels default_config)
  /\ Z.of_nat (length (states default_config)) = 23634
  /\ Z.of_nat (size (init_Q default_config)) = 661752
  /\ (forall s a, s ∈ states default_config -> a ∈ price_levels default_config ->
        init_Q default_config !! (s, a) = Some 0%R)
  /\ (forall s a v, init_Q default_config !! (s, a) = Some v ->
        s ∈ states default_config /\ a ∈ price_levels default_config /\ v = 0%R).
Proof.
  assert (0 <= num_seats default_config) as Hns by (simpl; lia).
  assert (0 <= time_horizon default_config) as Hth by (simpl; lia).
  assert (NoDup (price_levels default_config)) as Hnd
    by (apply (bool_decide_unpack (NoDup (price_levels default_config)));
        vm_compute; exact I).
  split; [exact Hns |]. split; [exact Hth |]. split; [exact Hnd |].
  exact (init_Q_full_and_zero default_config Hns Hth Hnd).
Defined.

Lemma next_state_always_enumerated_witness :
  prices_ok default_config
  /\ enough_fuel default_config 11
  /\ exists Q log,
       train default_config 11 still_draws (init_Q default_config)
       = Some (Ok (Q, log))
       /\ length log = episodes default_config
       /\ Forall (fun ep =>
            Forall (fun t =>
              tr_next_state t ∈ states default_config
              /\ tr_next_in_states t = true
              /\ (0 <= (tr_next_state t).1.1.1.1 <= num_seats default_config)
              /\ (0 <= (tr_next_state t).1.1.1.2 <= time_horizon default_config))
              ep.2) log.
Proof.
  assert (prices_ok default_config) as Hp by default_prices.
  assert (enough_fuel default_config 11) as Hf by default_fuel.
  split; [exact Hp |]. split; [exact Hf |].
  apply (next_state_always_enumerated default_config 11 still_draws Hp Hf).
Defined.

Lemma policy_is_argmax_witness :
  prices_ok default_config
  /\ enough_fuel default_config 11
  /\ exists Q pol,
       program default_config 11 still_draws first_picks = Some (Ok (Q, pol))
       /\ (forall s, s ∈ states default_config ->
             exists a, pol !! s = Some a
               /\ a ∈ price_levels default_config
               /\ exists v, Q !! (s, a) = Some v
                  /\ forall a', a' ∈ price_levels default_config ->
                       exists v', Q !! (s, a') = Some v' /\ (v' <= v)%R)
       /\ (forall s, s ∉ states default_config -> pol !! s = None).
Proof.
  assert (prices_ok default_config) as Hp by default_prices.
  assert (enough_fuel default_config 11) as Hf by default_fuel.
  split; [exact Hp |]. split; [exact Hf |].
  apply (policy_is_argmax default_config 11 still_draws first_picks Hp Hf).
Defined.

Lemma q_values_bounded_witness :
  (0 <= gamma default_config < 1)%R
  /\ (0 <= alpha default_config <= 1)%R
  /\ q_bounded default_config (init_Q default_config)
  /\ (forall Q e d Q' e' t,
        q_bounded default_config Q ->
        episode_step default_config Q e d = Ok (Q', e', t) ->
        q_bounded default_config Q')
  /\ (forall fuel draws Q log,
        train default_config fuel draws (init_Q default_config)
        = Some (Ok (Q, log)) ->
        q_bounded default_config Q)
  /\ (forall fuel draws,
        prices_ok default_config -> enough_fuel default_config fuel ->
        exists Q log,
          train default_config fuel draws (init_Q default_config)
          = Some (Ok (Q, log))
          /\ forall key v, Q !! key = Some v ->
               (0 <= v <= IZR (max_price default_config)
                          / (1 - gamma default_config))%R).
Proof.
  assert (0 <= gamma default_config < 1)%R as Hg by (simpl; lra).
  assert (0 <= alpha default_config <= 1)%R as Ha by (simpl; lra).
  split; [exact Hg |]. split; [exact Ha |].
  apply (q_values_bounded default_config Hg Ha).
Defined.

Lemma training_terminates_witness :
  1 <= time_horizon default_config
  /\ enough_fuel default_config 11
  /\ (forall d Q, exists r,
        run_episode default_config
          (Z.to_nat (time_horizon default_config - 1)) d Q = Some r)
  /\ (exists r,
        train default_config 11 still_draws (init_Q default_config) = Some r)
  /\ (forall Q log,
        train default_config 11 still_draws (init_Q default_config)
        = Some (Ok (Q, log)) ->
        length log = episodes default_config
        /\ Forall (fun ep =>
             Z.of_nat (length ep.2) <= time_horizon default_config - 1) log)
  /\ (prices_ok default_config ->
      exists Q log,
        train default_config 11 still_draws (init_Q default_config)
        = Some (Ok (Q, log))).
Proof.
  assert (1 <= time_horizon default_config) as Hth by (simpl; lia).
  assert (enough_fuel default_config 11) as Hf by default_fuel.
  split; [exact Hth |]. split; [exact Hf |].
  apply (training_terminates default_config 11 still_draws Hth Hf).
Defined.

Lemma builder_never_fails_witness :
  prices_ok no_horizon_config
  /\ enough_fuel no_horizon_config 0
  /\ exists sts acts Q,
       state_space_builder no_horizon_config = Ok (sts, acts, Q)
       /\ acts = price_levels no_horizon_config
       /\ (forall seats time b c g,
             (seats, time, b, c, g) ∈ sts
             <-> 0 <= seats <= num_seats no_horizon_config
                 /\ 0 <= time <= time_horizon no_horizon_config)
       /\ (forall s a,
             Q !! (s, a)
             = if decide (s ∈ sts /\ a ∈ acts) then Some 0%R else None)
       /\ (prices_ok no_horizon_config -> forall fuel draws picks,
             enough_fuel no_horizon_config fuel ->
             exists r, program no_horizon_config fuel draws picks = Some (Ok r)).
Proof.
  assert (prices_ok no_horizon_config) as Hp by default_prices.
  assert (enough_fuel no_horizon_config 0) as Hf by default_fuel.
  split; [exact Hp |]. split; [exact Hf |].
  apply (builder_never_fails no_horizon_config).
Defined.

Lemma seats_accounting_witness :
  prices_ok default_config
  /\ 0 <= num_seats default_config
  /\ enough_fuel default_config 11
  /\ seats_consistent default_config (episode_start default_config)
  /\ exists Q log,
       train default_config 11 still_draws (init_Q default_config)
       = Some (Ok (Q, log))
       /\ length log = episodes default_config
       /\ Forall (fun ep =>
            seats_sold ep.1 + seats_left ep.1 = num_seats default_config
            /\ Forall (fun t =>
                 seats_consistent default_config (tr_before t)
                 /\ seats_consistent default_config (tr_after t)
                 /\ seats_step t) ep.2) log.
Proof.
  assert (prices_ok default_config) as Hp by default_prices.
  assert (0 <= num_seats default_config) as Hns by (simpl; lia).
  assert (enough_fuel default_config 11) as Hf by default_fuel.
  split; [exact Hp |]. split; [exact Hns |]. split; [exact Hf |].
  apply (seats_accounting default_config 11 still_draws Hp Hns Hf).
Defined.

(** C9, as stated, fails. With [time_horizon = 0] the configuration is
    invalid, yet the State Space Builder returns normally (101 * 1 * 18
    states), no exception is raised before or after it, and the script runs
    to its end with any fuel and any draws. *)
Lemma invalid_config_not_rejected :
  invalid_config no_horizon_config
  /\ (forall x, state_space_builder no_horizon_config <> Raise x)
  /\ length (states no_horizon_config) = 1818%nat
  /\ forall fuel draws picks,
       exists r, program no_horizon_config fuel draws picks = Some (Ok r).
Proof.
  split; [left; simpl; lia |]. split; [intros x; discriminate |].
  split; [rewrite length_states; reflexivity |].
  intros fuel draws picks.
  destruct (program_ok no_horizon_config fuel draws picks) as (Q & pol & H & _).
  - default_prices.
  - default_fuel.
  - eauto.
Qed.

(** * Further properties of the market model *)

Section MarketMore.

#[local] Open Scope R_scope.

Lemma py_pow_nonneg x y : 0 <= py_pow x y.
Proof.
  unfold py_pow. destruct (Req_dec_T x 0); [lra |].
  unfold Rpower. left. apply exp_pos.
Qed.

Lemma exp_nonpos_le_1 x : x <= 0 -> exp x <= 1.
Proof.
  intros [Hx | ->]; [| rewrite exp_0; lra].
  rewrite <- exp_0. left. apply exp_increasing. exact Hx.
Qed.

Lemma demand_prob_range price s c :
  0 < demand_prob price s c <= 715 / 1000.
Proof.
  unfold demand_prob.
  pose proof (py_pow_nonneg price (customer_elasticity s)) as Hpow.
  pose proof (price_sensitivity_pos s) as Hs.
  pose proof (exp_pos (- price_sensitivity s * py_pow price (customer_elasticity s)))
    as Hlo.
  pose proof (exp_nonpos_le_1
    (- price_sensitivity s * py_pow price (customer_elasticity s))) as Hhi.
  assert (- price_sensitivity s * py_pow price (customer_elasticity s) <= 0)
    as Hneg by nra.
  specialize (Hhi Hneg).
  destruct c; simpl; split; nra.
Qed.

(** The upper clamp of line 34 never acts: for a price [>= 0] the result is
    [max(demand_prob, 0.1)] and never exceeds [0.715 = 0.5 * 1.1 * 1.3]. *)
Theorem demand_probability_upper_clamp_idle price s c :
  0 <= price ->
  exists p, get_demand_probability price s c = Ok p
    /\ p = py_max2 (demand_prob price s c) (1 / 10)
    /\ 1 / 10 <= p <= 715 / 1000.
Proof.
  intros Hprice. rewrite get_demand_probability_eq by exact Hprice.
  pose proof (demand_prob_range price s c) as Hraw.
  eexists. split; [reflexivity |].
  unfold py_min2, py_max2.
  destruct (Rlt_dec (demand_prob price s c) (1 / 10));
    destruct (Rlt_dec 1 _); split; try reflexivity; lra.
Qed.

Lemma demand_probability_upper_clamp_idle_witness :
  0 <= 640
  /\ exists p, get_demand_probability 640 Business High = Ok p
       /\ p = py_max2 (demand_prob 640 Business High) (1 / 10)
       /\ 1 / 10 <= p <= 715 / 1000.
Proof.
  assert (0 <= 640) as H by lra.
  split; [exact H |].
  apply (demand_probability_upper_clamp_idle 640 Business High H).
Defined.

(** A dearer competitor never lowers the demand: for the same price and
    segment the probability grows with the competitor level. *)
Theorem demand_probability_competitor_monotone price s c1 c2 :
  0 <= price ->
  (level_to_nat c1 <= level_to_nat c2)%nat ->
  exists p1 p2,
    get_demand_probability price s c1 = Ok p1
    /\ get_demand_probability price s c2 = Ok p2
    /\ p1 <= p2.
Proof.
  intros Hprice Hc. rewrite !get_demand_probability_eq by exact Hprice.
  do 2 eexists. split; [reflexivity |]. split; [reflexivity |].
  apply clamp_mono. unfold demand_prob.
  pose proof (exp_pos (- price_sensitivity s * py_pow price (customer_elasticity s))).
  destruct c1, c2; simpl in Hc; simpl; try lia; nra.
Qed.

Lemma demand_probability_competitor_monotone_witness :
  0 <= 300
  /\ (level_to_nat Low <= level_to_nat High)%nat
  /\ exists p1 p2,
       get_demand_probability 300 Economy Low = Ok p1
       /\ get_demand_probability 300 Economy High = Ok p2
       /\ p1 <= p2.
Proof.
  assert (0 <= 300) as H by lra.
  assert (level_to_nat Low <= level_to_nat High)%nat as Hc by (simpl; lia).
  split; [exact H |]. split; [exact Hc |].
  apply (demand_probability_competitor_monotone 300 Economy Low High H Hc).
Defined.

(** The category as a function of the rate alone. *)
Lemma get_booking_rate_by_rate cfg ss te :
  time_horizon cfg <> 0%Z ->
  get_booking_rate cfg ss te
  = Ok (if Rlt_dec (rate ss te) (low_threshold cfg) then Low
        else if Rlt_dec (rate ss te) (medium_threshold cfg) then Medium
        else High).
Proof.
  intros Hth. unfold get_booking_rate.
  destruct (Z.eqb_spec (time_horizon cfg) 0) as [| _]; [contradiction |].
  repeat match goal with |- context [Rlt_dec ?a ?b] =>
           destruct (Rlt_dec a b) end; reflexivity.
Qed.

Lemma thresholds_ordered cfg :
  (0 < time_horizon cfg)%Z -> (0 <= num_seats cfg)%Z ->
  0 <= low_threshold cfg <= medium_threshold cfg.
Proof.
  intros Hth Hns.
  destruct (thresholds_ratio cfg) as [-> ->]; [lia |].
  assert (0 <= high_threshold cfg).
  { unfold high_threshold. apply IZR_le in Hns. apply IZR_lt in Hth.
    apply Rmult_le_pos; [lra |]. left. apply Rinv_0_lt_compat. lra. }
  lra.
Qed.

Lemma booking_category_monotone cfg ss1 te1 ss2 te2 b1 b2 :
  (0 < time_horizon cfg)%Z -> (0 <= num_seats cfg)%Z ->
  rate ss1 te1 <= rate ss2 te2 ->
  get_booking_rate cfg ss1 te1 = Ok b1 ->
  get_booking_rate cfg ss2 te2 = Ok b2 ->
  (level_to_nat b1 <= level_to_nat b2)%nat.
Proof.
  intros Hth Hns Hr.
  pose proof (thresholds_ordered cfg Hth Hns) as Hord.
  rewrite !get_booking_rate_by_rate by lia.
  intros [= <-] [= <-].
  repeat match goal with |- context [Rlt_dec ?a ?b] =>
           destruct (Rlt_dec a b) end; simpl; try lia; lra.
Qed.

Lemma time_factor_monotone te1 te2 :
  (te1 <= te2)%Z -> time_factor te1 <= time_factor te2.
Proof.
  intros Hte. unfold time_factor.
  destruct (Z.ltb_spec 0 te1) as [H1 | H1];
    destruct (Z.ltb_spec 0 te2) as [H2 | H2]; try lia; try lra.
  - destruct (Z.eq_dec te1 te2) as [-> | Hne]; [lra |].
    left. apply ln_increasing; [apply IZR_lt; lia | apply IZR_lt; lia].
  - pose proof (time_factor_nonneg te2) as H. unfold time_factor in H.
    destruct (Z.ltb_spec 0 te2); [exact H | lia].
Qed.

(** With a positive horizon and [num_seats >= 0], the booking-rate category
    never drops when more seats are sold in the same time, and never rises
    when the same sales took longer. *)
Theorem booking_rate_monotone cfg ss1 ss2 te1 te2 :
  (0 < time_horizon cfg)%Z -> (0 <= num_seats cfg)%Z ->
  (0 <= ss1 <= ss2)%Z -> (te1 <= te2)%Z ->
  exists b_slow b_fast,
    get_booking_rate cfg ss1 te2 = Ok b_slow
    /\ get_booking_rate cfg ss2 te1 = Ok b_fast
    /\ (level_to_nat b_slow <= level_to_nat b_fast)%nat.
Proof.
  intros Hth Hns [Hss1 Hss] Hte.
  destruct (get_booking_rate_ok cfg ss1 te2) as [b1 H1]; [lia |].
  destruct (get_booking_rate_ok cfg ss2 te1) as [b2 H2]; [lia |].
  exists b1, b2. split; [exact H1 |]. split; [exact H2 |].
  eapply booking_category_monotone; eauto.
  unfold rate.
  pose proof (time_factor_monotone te1 te2 Hte) as Htf.
  pose proof (time_factor_nonneg te1) as Htf1.
  apply IZR_le in Hss1, Hss.
  assert (/ (1 + time_factor te2) <= / (1 + time_factor te1)) as Hinv
    by (apply Rinv_le_contravar; lra).
  assert (0 < / (1 + time_factor te2)) by (apply Rinv_0_lt_compat; lra).
  unfold Rdiv. nra.
Qed.

Lemma booking_rate_monotone_witness :
  (0 < time_horizon default_config)%Z
  /\ (0 <= num_seats default_config)%Z
  /\ (0 <= 2 <= 7)%Z /\ (1 <= 5)%Z
  /\ exists b_slow b_fast,
       get_booking_rate default_config 2 5 = Ok b_slow
       /\ get_booking_rate default_config 7 1 = Ok b_fast
       /\ (level_to_nat b_slow <= level_to_nat b_fast)%nat.
Proof.
  assert (0 < time_horizon default_config)%Z as Hth by (simpl; lia).
  assert (0 <= num_seats default_config)%Z as Hns by (simpl; lia).
  assert (0 <= 2 <= 7)%Z as Hss by lia. assert (1 <= 5)%Z as Hte by lia.
  split; [exact Hth |]. split; [exact Hns |]. split; [exact Hss |].
  split; [exact Hte |].
  apply (booking_rate_monotone default_config 2 7 1 5 Hth Hns Hss Hte).
Defined.

(** [get_booking_rate] raises, and then [ZeroDivisionError], exactly when
    [time_horizon] is 0; with positive [num_seats] and [time_horizon] and no
    seat sold, as at the start of every episode, the category is ['Low']. *)
Theorem booking_rate_errors_and_start cfg ss te :
  (time_horizon cfg = 0%Z <->
   get_booking_rate cfg ss te = Raise ZeroDivisionError)
  /\ (forall x, get_booking_rate cfg ss te = Raise x -> x = ZeroDivisionError)
  /\ ((0 < time_horizon cfg)%Z -> (0 < num_seats cfg)%Z ->
      get_booking_rate cfg 0 te = Ok Low).
Proof.
  split; [| split].
  - split.
    + intros Hth. unfold get_booking_rate. rewrite Hth. reflexivity.
    + intros H. destruct (Z.eq_dec (time_horizon cfg) 0%Z) as [| Hne]; [assumption |].
      rewrite get_booking_rate_by_rate in H by exact Hne. discriminate.
  - intros x H. destruct (Z.eq_dec (time_horizon cfg) 0%Z) as [Hth | Hne].
    + unfold get_booking_rate in H. rewrite Hth in H. simpl in H. congruence.
    + rewrite get_booking_rate_by_rate in H by exact Hne. discriminate.
  - intros Hth Hns. rewrite get_booking_rate_by_rate by lia.
    assert (rate 0 te = 0) as -> by (unfold rate, Rdiv; ring).
    assert (0 < low_threshold cfg).
    { unfold low_threshold. apply Rmult_lt_0_compat; [apply IZR_lt; lia |].
      apply Rinv_0_lt_compat. apply IZR_lt. lia. }
    destruct (Rlt_dec 0 (low_threshold cfg)); [reflexivity | lra].
Qed.

Lemma booking_rate_errors_and_start_witness :
  (0 < time_horizon default_config)%Z
  /\ (0 < num_seats default_config)%Z
  /\ get_booking_rate default_config 0 0 = Ok Low.
Proof.
  assert (0 < time_horizon default_config)%Z as Hth by (simpl; lia).
  assert (0 < num_seats default_config)%Z as Hns by (simpl; lia).
  split; [exact Hth |]. split; [exact Hns |].
  exact (proj2 (proj2 (booking_rate_errors_and_start default_config 0 0)) Hth Hns).
Defined.

End MarketMore.

(** * Competitor price level and customer segment *)

Section Exogenous.

Variable cfg : config.

Lemma Int_part_shift (y : R) (k : Z) :
  Int_part (y + IZR k) = Int_part y + k.
Proof.
  symmetry. apply Int_part_spec. rewrite plus_IZR.
  destruct (base_Int_part y). lra.
Qed.

Lemma Int_part_small (y : R) (k : Z) :
  (IZR k <= y < IZR k + 1)%R -> Int_part y = k.
Proof. intros H. symmetry. apply Int_part_spec. lra. Qed.

(** Truncating the float remainder by 3 is the integer remainder of the
    floor. *)
Lemma py_int_fmod (y : R) : py_int (py_fmod y 3) = Int_part y mod 3.
Proof.
  pose proof (fmod_range y) as Hr.
  unfold py_int. destruct (Rle_dec 0 (py_fmod y 3)) as [_ | Hn]; [| lra].
  assert (Int_part (py_fmod y 3) = Int_part y + - (3 * Int_part (y / 3)))
    as Hshift.
  { rewrite <- Int_part_shift. f_equal. unfold py_fmod.
    rewrite opp_IZR, mult_IZR. ring. }
  pose proof (py_int_range _ Hr) as Hi. unfold py_int in Hi.
  destruct (Rle_dec 0 (py_fmod y 3)); [| lra].
  apply (Z.mod_unique _ _ (Int_part (y / 3))); lia.
Qed.

Lemma py_index_baseline (i : Z) :
  0 <= i < 3 -> py_index baseline_level i = Ok (level_of_index i).
Proof.
  intros Hi. assert (i = 0 \/ i = 1 \/ i = 2) as [-> | [-> | ->]] by lia;
    reflexivity.
Qed.

Lemma get_competitor_price_level_eq time fluctuation :
  time_horizon cfg <> 0 ->
  get_competitor_price_level cfg time fluctuation
  = Ok (level_of_index
          (Int_part (IZR time / IZR (time_horizon cfg) * 3 + fluctuation) mod 3)).
Proof.
  intros Hth. unfold get_competitor_price_level.
  destruct (Z.eqb_spec (time_horizon cfg) 0) as [| _]; [contradiction |].
  cbn [length baseline_level Z.of_nat Pos.of_succ_nat Pos.succ].
  rewrite py_int_fmod. apply py_index_baseline.
  apply Z.mod_pos_bound. lia.
Qed.

(** The level drawn is the entry of [['Low', 'Medium', 'High']] at the
    floor of [3 * time / time_horizon + noise], reduced modulo 3: the
    indexing never leaves the list, and the only exception is the
    [ZeroDivisionError] of [time_horizon = 0]. *)
Theorem competitor_level_by_floor time fluctuation :
  (time_horizon cfg = 0 ->
   get_competitor_price_level cfg time fluctuation = Raise ZeroDivisionError)
  /\ (time_horizon cfg <> 0 ->
      get_competitor_price_level cfg time fluctuation
      = Ok (level_of_index
              (Int_part (IZR time / IZR (time_horizon cfg) * 3 + fluctuation)
               mod 3))).
Proof.
  split.
  - intros Hth. unfold get_competitor_price_level. rewrite Hth. reflexivity.
  - apply get_competitor_price_level_eq.
Qed.

Lemma floor_of_ratio (time th : Z) :
  0 < th -> Int_part (IZR time / IZR th * 3 + 0) = 3 * time / th.
Proof.
  intros Hth. apply Int_part_small.
  pose proof (Z.div_mod (3 * time) th ltac:(lia)) as Hdm.
  pose proof (Z.mod_pos_bound (3 * time) th Hth) as [Hlo Hhi].
  apply IZR_le in Hlo. apply IZR_lt in Hhi. apply IZR_lt in Hth.
  apply (f_equal IZR) in Hdm.
  rewrite plus_IZR, !mult_IZR in Hdm.
  set (q := IZR (3 * time / th)) in *. set (r := IZR ((3 * time) mod th)) in *.
  assert (IZR time / IZR th * 3 + 0 = q + r / IZR th)%R as ->.
  { field_simplify_eq; lra. }
  assert (0 <= r / IZR th < 1)%R.
  { split.
    - apply Rmult_le_pos; [lra |]. left. apply Rinv_0_lt_compat. lra.
    - apply Rmult_lt_reg_r with (IZR th); [lra |]. field_simplify; lra. }
  lra.
Qed.

(** Without noise and with a positive horizon the competitor's level is
    ['Low'] in the first third of [[0, time_horizon)], ['Medium'] in the
    second, ['High'] in the last, and it wraps to ['Low'] again at
    [time = time_horizon]. *)
Theorem competitor_schedule_without_noise time :
  0 < time_horizon cfg ->
  get_competitor_price_level cfg time 0
  = Ok (level_of_index ((3 * time / time_horizon cfg) mod 3))
  /\ (0 <= 3 * time < time_horizon cfg ->
      get_competitor_price_level cfg time 0 = Ok Low)
  /\ (time_horizon cfg <= 3 * time < 2 * time_horizon cfg ->
      get_competitor_price_level cfg time 0 = Ok Medium)
  /\ (2 * time_horizon cfg <= 3 * time < 3 * time_horizon cfg ->
      get_competitor_price_level cfg time 0 = Ok High)
  /\ get_competitor_price_level cfg (time_horizon cfg) 0 = Ok Low.
Proof.
  intros Hth.
  assert (forall t, get_competitor_price_level cfg t 0
                    = Ok (level_of_index ((3 * t / time_horizon cfg) mod 3)))
    as Heq.
  { intros t. rewrite get_competitor_price_level_eq by lia.
    rewrite floor_of_ratio by exact Hth. reflexivity. }
  split; [apply Heq |]. repeat split.
  - intros H. rewrite Heq. rewrite Z.div_small by lia. reflexivity.
  - intros H. rewrite Heq.
    replace (3 * time / time_horizon cfg) with 1; [reflexivity |].
    apply (Z.div_unique _ _ 1 (3 * time - time_horizon cfg)); lia.
  - intros H. rewrite Heq.
    replace (3 * time / time_horizon cfg) with 2; [reflexivity |].
    apply (Z.div_unique _ _ 2 (3 * time - 2 * time_horizon cfg)); lia.
  - rewrite Heq.
    replace (3 * time_horizon cfg / time_horizon cfg) with 3; [reflexivity |].
    apply (Z.div_unique _ _ 3 0); lia.
Qed.

(** When seats are scarce ([seats_left < num_seats / 3]) the segment is
    ['Business'] exactly when the uniform draw is below
    [min(0.8, time / time_horizon)], a probability that falls to 0 as [time]
    reaches 0; otherwise it is the uniform choice between the two segments.
    Only [time_horizon = 0] raises. *)
Theorem customer_segment_rule time seats_left u pick :
  time_horizon cfg <> 0 ->
  ((IZR seats_left < IZR (num_seats cfg) / 3)%R ->
   exists g, get_customer_segment cfg time seats_left u pick = Ok g
     /\ (g = Business <->
         (u < 8 / 10 /\ u < IZR time / IZR (time_horizon cfg))%R))
  /\ (~ (IZR seats_left < IZR (num_seats cfg) / 3)%R ->
      get_customer_segment cfg time seats_left u pick
      = random_choice customer_segments pick
      /\ exists g, get_customer_segment cfg time seats_left u pick = Ok g).
Proof.
  intros Hth. unfold get_customer_segment.
  destruct (Z.eqb_spec (time_horizon cfg) 0) as [| _]; [contradiction |].
  split; intros Hscarce;
    destruct (Rlt_dec (IZR seats_left) (IZR (num_seats cfg) / 3));
    try contradiction.
  - eexists. split; [reflexivity |]. unfold py_max2.
    destruct (Rlt_dec (2 / 10) (1 - IZR time / IZR (time_horizon cfg)));
      match goal with |- context [Rlt_dec u ?b] => destruct (Rlt_dec u b) end;
      split; intros H; try discriminate; try reflexivity; lra.
  - split; [reflexivity |]. apply random_choice_ok. discriminate.
Qed.

End Exogenous.

Lemma competitor_schedule_without_noise_witness :
  0 < time_horizon default_config
  /\ get_competitor_price_level default_config 11 0 = Ok High
  /\ get_competitor_price_level default_config 12 0 = Ok Low.
Proof.
  assert (0 < time_horizon default_config) as Hth by (simpl; lia).
  split; [exact Hth |].
  destruct (competitor_schedule_without_noise default_config 11 Hth)
    as (_ & _ & _ & Hhigh & Hwrap).
  split; [apply Hhigh; simpl; lia | exact Hwrap].
Defined.

Lemma customer_segment_rule_witness :
  time_horizon default_config <> 0
  /\ (IZR 10 < IZR (num_seats default_config) / 3)%R
  /\ exists g,
       get_customer_segment default_config 0 10 (1 / 2) 0 = Ok g
       /\ (g = Business <->
           (1 / 2 < 8 / 10
            /\ 1 / 2 < IZR 0 / IZR (time_horizon default_config))%R).
Proof.
  assert (time_horizon default_config <> 0) as Hth by (simpl; lia).
  assert (IZR 10 < IZR (num_seats default_config) / 3)%R as Hs by (simpl; lra).
  split; [exact Hth |]. split; [exact Hs |].
  exact (proj1 (customer_segment_rule default_config 0 10 (1 / 2) 0%nat Hth) Hs).
Defined.

Lemma competitor_level_by_floor_witness :
  time_horizon default_config <> 0
  /\ get_competitor_price_level default_config 11 (1 / 2)
     = Ok (level_of_index
             (Int_part (IZR 11 / IZR (time_horizon default_config) * 3 + 1 / 2)
              mod 3)).
Proof.
  assert (time_horizon default_config <> 0) as Hth by (simpl; lia).
  split; [exact Hth |].
  exact (proj2 (competitor_level_by_floor default_config 11 (1 / 2)) Hth).
Defined.

(** * Further properties of the learner *)

Section GreedyMore.

Variable cfg : config.

Lemma map_result_const {A B : Type} (f : A -> result B) (v : B) (l : list A) :
  (forall a, a ∈ l -> f a = Ok v) ->
  map_result f l = Ok (map (fun _ => v) l).
Proof.
  induction l as [| a l IH]; intros Hf; cbn [map_result map]; [reflexivity |].
  rewrite (Hf a) by left. cbn [mbind result_bind].
  rewrite IH by (intros; apply Hf; right; assumption). reflexivity.
Qed.

Lemma fold_py_max2_const {A : Type} (v : R) (l : list A) :
  fold_left py_max2 (map (fun _ => v) l) v = v.
Proof.
  induction l as [| a l IH]; cbn [map fold_left]; [reflexivity |].
  unfold py_max2 at 2. destruct (Rlt_dec v v); [lra | exact IH].
Qed.

Lemma py_max_const {A : Type} (v : R) (l : list A) :
  l <> [] -> py_max (map (fun _ => v) l) = Ok v.
Proof.
  destruct l as [| a l]; [congruence |]. intros _.
  cbn [map py_max]. rewrite fold_py_max2_const. reflexivity.
Qed.

Lemma filter_result_all {A : Type} (f : A -> result R) (v : R) (l : list A) :
  (forall a, a ∈ l -> f a = Ok v) -> filter_result f v l = Ok l.
Proof.
  induction l as [| a l IH]; intros Hf; cbn [filter_result]; [reflexivity |].
  rewrite (Hf a) by left. cbn [mbind result_bind].
  rewrite IH by (intros; apply Hf; right; assumption). cbn [mbind result_bind].
  destruct (Req_dec_T v v); [reflexivity | congruence].
Qed.

(** On a row whose entries are all equal every action is a maximiser. *)
Lemma greedy_action_flat Q s pick v :
  (forall a, a ∈ actions cfg -> Q !! (s, a) = Some v) ->
  actions cfg <> [] ->
  greedy_action cfg Q s pick = random_choice (actions cfg) pick.
Proof.
  intros Hrow Hne. unfold greedy_action.
  assert (forall a, a ∈ actions cfg -> q_get Q (s, a) = Ok v) as Hget
    by (intros a Ha; apply q_get_Ok, Hrow, Ha).
  rewrite (map_result_const _ v _ Hget). cbn [mbind result_bind].
  rewrite (py_max_const v _ Hne). cbn [mbind result_bind].
  rewrite (filter_result_all _ v _ Hget). reflexivity.
Qed.

(** In the untrained table every row is flat: the greedy choice of lines
    126-129 and 163-166 is then the uniform choice among all the price
    levels, so that the first visits of a state explore whatever [epsilon]
    is. *)
Theorem greedy_on_zero_table_is_uniform s pick :
  s ∈ states cfg -> price_levels cfg <> [] ->
  greedy_action cfg (init_Q cfg) s pick
  = random_choice (price_levels cfg) pick.
Proof.
  intros Hs Hne. apply (greedy_action_flat _ _ _ 0%R); [| exact Hne].
  intros a Ha. rewrite lookup_init_Q. apply decide_True. auto.
Qed.

(** When one action has an entry strictly above all the others of its row,
    the greedy choice is that action and the tie-break draw plays no
    part. *)
Theorem greedy_unique_maximiser Q s best v pick :
  best ∈ actions cfg ->
  Q !! (s, best) = Some v ->
  (forall a, a ∈ actions cfg -> a <> best ->
     exists w, Q !! (s, a) = Some w /\ (w < v)%R) ->
  greedy_action cfg Q s pick = Ok best.
Proof.
  intros Hbest Hv Hothers.
  destruct (greedy_action_ok cfg Q s pick) as [a Ha].
  { intros Hnil. rewrite Hnil in Hbest. inversion Hbest. }
  { intros a Ha. destruct (decide (a = best)) as [-> | Hne]; [eauto |].
    destruct (Hothers a Ha Hne) as (w & Hw & _). eauto. }
  rewrite Ha. f_equal.
  apply greedy_action_sound in Ha as (Hin & va & Hva & Hmax).
  destruct (decide (a = best)) as [| Hne]; [assumption | exfalso].
  destruct (Hothers a Hin Hne) as (w & Hw & Hlt).
  destruct (Hmax best Hbest) as (v' & Hv' & Hle).
  rewrite Hv in Hv'. rewrite Hva in Hw.
  injection Hv' as <-. injection Hw as <-. lra.
Qed.

(** One iteration on the untrained table: it succeeds, and the entry it
    writes is [alpha * reward]; without a sale the table stays the zero
    table. *)
Theorem first_update_writes_alpha_reward e d :
  prices_ok cfg ->
  0 < time e < time_horizon cfg ->
  0 < seats_left e <= num_seats cfg ->
  exists Q' e' t,
    episode_step cfg (init_Q cfg) e d = Ok (Q', e', t)
    /\ Q' = <[(tr_state t, tr_action t) :=
               (alpha cfg * IZR (tr_reward t))%R]> (init_Q cfg)
    /\ (tr_reward t = 0 -> Q' = init_Q cfg).
Proof.
  intros Hp Ht Hs.
  destruct (episode_step_ok cfg (init_Q cfg) e d Hp (init_Q_dense cfg) Ht Hs)
    as [[[Q' e'] t] Hstep].
  exists Q', e', t. split; [exact Hstep |].
  apply episode_step_inv in Hstep
    as (b & c & g & a & p & sale & b' & c' & mfq & old & H).
  destruct H as (_ & _ & _ & _ & _ & _ & _ & _ & _ & Hmfq & Hold & -> & ->).
  cbn [tr_state tr_action tr_reward].
  assert (old = 0%R) as ->.
  { rewrite lookup_init_Q in Hold. case_decide; congruence. }
  assert (mfq = 0%R) as ->.
  { destruct Hmfq as [-> | [a' Ha']]; [reflexivity |].
    rewrite lookup_init_Q in Ha'. case_decide; congruence. }
  assert (forall r, (0 + alpha cfg * (r + gamma cfg * 0 - 0))%R
                    = (alpha cfg * r)%R) as Hval by (intros; ring).
  rewrite Hval. split; [reflexivity |].
  intros ->. rewrite Rmult_0_r. apply insert_id. exact Hold.
Qed.

End GreedyMore.

Lemma greedy_on_zero_table_is_uniform_witness :
  (100, 11, Low, Low, Economy) ∈ states default_config
  /\ price_levels default_config <> []
  /\ greedy_action default_config (init_Q default_config)
       (100, 11, Low, Low, Economy) 3
     = random_choice (price_levels default_config) 3.
Proof.
  assert ((100, 11, Low, Low, Economy) ∈ states default_config) as Hs
    by (apply elem_of_states; simpl; lia).
  assert (price_levels default_config <> []) as Hne by discriminate.
  split; [exact Hs |]. split; [exact Hne |].
  apply (greedy_on_zero_table_is_uniform default_config _ 3%nat Hs Hne).
Defined.

Lemma greedy_unique_maximiser_witness :
  let s : state := (3, 3, Low, Low, Economy) in
  let Q : qtable := <[(s, 120) := 1%R]> (init_Q two_price_config) in
  120 ∈ actions two_price_config
  /\ Q !! (s, 120) = Some 1%R
  /\ (forall a, a ∈ actions two_price_config -> a <> 120 ->
        exists w, Q !! (s, a) = Some w /\ (w < 1)%R)
  /\ greedy_action two_price_config Q s 0 = Ok 120.
Proof.
  intros s Q.
  assert (120 ∈ actions two_price_config) as Hbest
    by (right; left).
  assert (Q !! (s, 120) = Some 1%R) as Hv by apply lookup_insert_eq.
  assert (forall a, a ∈ actions two_price_config -> a <> 120 ->
            exists w, Q !! (s, a) = Some w /\ (w < 1)%R) as Hothers.
  { intros a Ha Hne. exists 0%R. split; [| lra].
    unfold Q. rewrite lookup_insert_ne by congruence.
    rewrite lookup_init_Q. apply decide_True. split; [| exact Ha].
    apply elem_of_states. simpl. lia. }
  split; [exact Hbest |]. split; [exact Hv |]. split; [exact Hothers |].
  apply (greedy_unique_maximiser two_price_config Q s 120 1%R 0%nat
           Hbest Hv Hothers).
Defined.

Lemma first_update_writes_alpha_reward_witness :
  prices_ok default_config
  /\ 0 < time (episode_start default_config) < time_horizon default_config
  /\ 0 < seats_left (episode_start default_config) <= num_seats default_config
  /\ exists Q' e' t,
       episode_step default_config (init_Q default_config)
         (episode_start default_config) still_draw = Ok (Q', e', t)
       /\ Q' = <[(tr_state t, tr_action t) :=
                  (alpha default_config * IZR (tr_reward t))%R]>
                 (init_Q default_config)
       /\ (tr_reward t = 0 -> Q' = init_Q default_config).
Proof.
  assert (prices_ok default_config) as Hp by default_prices.
  assert (0 < time (episode_start default_config) < time_horizon default_config)
    as Ht by (simpl; lia).
  assert (0 < seats_left (episode_start default_config)
          <= num_seats default_config) as Hs by (simpl; lia).
  split; [exact Hp |]. split; [exact Ht |]. split; [exact Hs |].
  apply (first_update_writes_alpha_reward default_config
           (episode_start default_config) still_draw Hp Ht Hs).
Defined.

(** * Further properties of training *)

Section TrainingMore.

Variable cfg : config.

Lemma episode_loop_exit fuel draws i Q e trace Q' e' trace' :
  episode_loop cfg fuel draws i Q e trace = Some (Ok (Q', e', trace')) ->
  time e' <= 0 \/ seats_left e' <= 0.
Proof.
  revert i Q e trace.
  induction fuel as [| fuel IH]; intros i Q e trace; cbn [episode_loop].
  - destruct (Z.ltb_spec 0 (time e)); destruct (Z.ltb_spec 0 (seats_left e));
      simpl; try discriminate; intros [= <- <- <-]; lia.
  - destruct (Z.ltb_spec 0 (time e)); destruct (Z.ltb_spec 0 (seats_left e));
      simpl; try (intros [= <- <- <-]; lia).
    destruct (episode_step cfg Q e (draws i)) as [[[Q1 e1] t] | x];
      [apply IH | discriminate].
Qed.

(** ** The key set *)

Lemma episode_step_dom Q e d Q' e' t :
  episode_step cfg Q e d = Ok (Q', e', t) -> dom Q' = dom Q.
Proof.
  intros H. apply episode_step_inv in H
    as (b & c & g & a & p & sale & b' & c' & mfq & old & H).
  destruct H as (_ & _ & _ & _ & _ & _ & _ & _ & _ & _ & Hold & -> & _).
  apply dom_insert_lookup_L. eauto.
Qed.

Lemma train_dom fuel draws Q log :
  train cfg fuel draws (init_Q cfg) = Some (Ok (Q, log)) ->
  dom Q = dom (init_Q cfg).
Proof.
  unfold train. intros Htrain.
  eapply (train_from_inv cfg (fun Q => dom Q = dom (init_Q cfg)) (fun _ => True))
    in Htrain; [tauto | | reflexivity | apply Forall_nil_2].
  intros fuel' d Q0 Q1 e trace HQ0 Hrun. split; [| exact I].
  unfold run_episode in Hrun.
  eapply (episode_loop_inv cfg (fun Q => dom Q = dom (init_Q cfg))
            (fun _ => True) (fun _ => True)) in Hrun;
    [tauto | | exact HQ0 | exact I | apply Forall_nil_2].
  intros Qa ea da Qb eb tb Hdom _ _ _ Hstep.
  apply episode_step_dom in Hstep. split; [congruence | tauto].
Qed.

(** Training never adds and never deletes a key: after any run the table
    has an entry for exactly the pairs of an enumerated state and a price
    level, as it had before the first episode. *)
Theorem training_keeps_key_set fuel draws :
  prices_ok cfg -> enough_fuel cfg fuel ->
  exists Q log,
    train cfg fuel draws (init_Q cfg) = Some (Ok (Q, log))
    /\ dom Q = dom (init_Q cfg)
    /\ size Q = size (init_Q cfg)
    /\ forall s a, is_Some (Q !! (s, a))
                   <-> s ∈ states cfg /\ a ∈ price_levels cfg.
Proof.
  intros Hp Hfuel.
  destruct (train_ok cfg fuel draws Hp Hfuel) as (Q & log & Htrain & _).
  pose proof (train_dom fuel draws Q log Htrain) as Hdom.
  exists Q, log. split; [exact Htrain |]. split; [exact Hdom |]. split.
  - rewrite <- !size_dom. rewrite Hdom. reflexivity.
  - intros s a. rewrite <- elem_of_dom, Hdom, elem_of_dom, lookup_init_Q.
    simpl. case_decide as H; split; intros H'; try tauto; eauto.
    destruct H' as [? ?]; discriminate.
Qed.

(** ** The learning rate 0 *)

Lemma episode_step_frozen Q e d Q' e' t :
  alpha cfg = 0%R ->
  episode_step cfg Q e d = Ok (Q', e', t) -> Q' = Q.
Proof.
  intros Halpha H. apply episode_step_inv in H
    as (b & c & g & a & p & sale & b' & c' & mfq & old & H).
  destruct H as (_ & _ & _ & _ & _ & _ & _ & _ & _ & _ & Hold & -> & _).
  rewrite Halpha.
  replace (old + 0 * (IZR (if sale then a else 0) + gamma cfg * mfq - old))%R
    with old by ring.
  apply insert_id. exact Hold.
Qed.

(** With [alpha = 0] every update rewrites the entry it read: training
    returns the zero table. *)
Theorem zero_learning_rate_freezes_table fuel draws :
  prices_ok cfg -> enough_fuel cfg fuel -> alpha cfg = 0%R ->
  exists log, train cfg fuel draws (init_Q cfg) = Some (Ok (init_Q cfg, log)).
Proof.
  intros Hp Hfuel Halpha.
  destruct (train_ok cfg fuel draws Hp Hfuel) as (Q & log & Htrain & _).
  exists log. rewrite Htrain. do 3 f_equal.
  unfold train in Htrain.
  eapply (train_from_inv cfg (fun Q => Q = init_Q cfg) (fun _ => True))
    in Htrain; [tauto | | reflexivity | apply Forall_nil_2].
  intros fuel' d Q0 Q1 e trace HQ0 Hrun. split; [| exact I].
  unfold run_episode in Hrun.
  eapply (episode_loop_inv cfg (fun Q => Q = init_Q cfg)
            (fun _ => True) (fun _ => True)) in Hrun;
    [tauto | | exact HQ0 | exact I | apply Forall_nil_2].
  intros Qa ea da Qb eb tb HQa _ _ _ Hstep.
  apply (episode_step_frozen _ _ _ _ _ _ Halpha) in Hstep.
  split; [congruence | tauto].
Qed.

(** ** Clock, seats and revenue *)

Lemma episode_step_budget Q e d Q' e' t :
  episode_budget cfg e ->
  episode_step cfg Q e d = Ok (Q', e', t) ->
  episode_budget cfg e'.
Proof.
  intros (Hclock & Hsold & Hsum & Hrev) H.
  apply episode_step_inv in H
    as (b & c & g & a & p & sale & b' & c' & mfq & old & H).
  destruct H as (_ & _ & _ & Ha & Hp & _ & -> & _).
  assert (0 <= a <= max_price cfg) as Hprice.
  { split; [| apply le_max_price, Ha].
    unfold get_demand_probability in Hp.
    destruct (Rlt_dec (IZR a) 0) as [| Hn]; [discriminate |].
    apply le_IZR. lra. }
  unfold episode_budget. cbn [time time_elapsed seats_sold seats_left total_reward].
  destruct sale; repeat split; lia.
Qed.

Lemma episode_start_budget : episode_budget cfg (episode_start cfg).
Proof. unfold episode_budget, episode_start; simpl. lia. Qed.

Lemma run_episode_budget fuel d Q Q' e trace :
  1 <= time_horizon cfg ->
  run_episode cfg fuel d Q = Some (Ok (Q', e, trace)) ->
  episode_budget cfg e
  /\ 0 <= time e
  /\ Z.of_nat (length trace) = time_elapsed e
  /\ (time e <= 0 \/ seats_left e <= 0).
Proof.
  intros Hth Hrun. unfold run_episode in Hrun.
  pose proof (episode_loop_exit _ _ _ _ _ _ _ _ _ Hrun) as Hexit.
  pose proof (episode_loop_length _ _ _ _ _ _ _ _ _ _ Hrun) as [Hlen Hpos].
  cbn [episode_start time length] in Hlen, Hpos.
  eapply (episode_loop_inv cfg (fun _ => True) (episode_budget cfg)
            (fun _ => True)) in Hrun;
    [| | exact I | apply episode_start_budget | apply Forall_nil_2].
  - destruct Hrun as (_ & Hb & _). split; [exact Hb |].
    destruct Hb as (Hclock & _). repeat split; try lia; exact Hexit.
  - intros Qa ea da Qb eb tb _ Hb _ _ Hstep.
    split; [exact I |]. split; [| exact I].
    eapply episode_step_budget; eauto.
Qed.

Lemma train_budget fuel draws Q log :
  1 <= time_horizon cfg ->
  train cfg fuel draws (init_Q cfg) = Some (Ok (Q, log)) ->
  Forall (fun ep =>
    episode_budget cfg ep.1
    /\ 0 <= time ep.1
    /\ Z.of_nat (length ep.2) = time_elapsed ep.1
    /\ (time ep.1 <= 0 \/ seats_left ep.1 <= 0)) log.
Proof.
  intros Hth Htrain. unfold train in Htrain.
  eapply (train_from_inv cfg (fun _ => True)) in Htrain;
    [destruct Htrain as (_ & H & _); exact H | | exact I | apply Forall_nil_2].
  intros fuel' d Q0 Q1 e trace _ Hrun. split; [exact I |]. simpl.
  eapply run_episode_budget; eauto.
Qed.

(** An episode sells at most one seat per iteration, hence at most
    [time_horizon - 1] seats, and earns at most [max_price] per seat sold:
    at its end [time + time_elapsed = time_horizon - 1], the number of
    iterations is [time_elapsed], [seats_sold <= time_elapsed],
    [seats_left >= num_seats - (time_horizon - 1)] and
    [0 <= total_reward <= max_price * seats_sold]. *)
Theorem episode_sales_and_revenue_bounds fuel draws :
  prices_ok cfg -> enough_fuel cfg fuel -> 1 <= time_horizon cfg ->
  exists Q log,
    train cfg fuel draws (init_Q cfg) = Some (Ok (Q, log))
    /\ Forall (fun ep =>
         time ep.1 + time_elapsed ep.1 = time_horizon cfg - 1
         /\ Z.of_nat (length ep.2) = time_elapsed ep.1
         /\ 0 <= seats_sold ep.1 <= time_elapsed ep.1
         /\ time_elapsed ep.1 <= time_horizon cfg - 1
         /\ num_seats cfg - (time_horizon cfg - 1) <= seats_left ep.1
         /\ 0 <= total_reward ep.1 <= max_price cfg * seats_sold ep.1
         /\ total_reward ep.1 <= max_price cfg * (time_horizon cfg - 1)) log.
Proof.
  intros Hp Hfuel Hth.
  destruct (train_ok cfg fuel draws Hp Hfuel) as (Q & log & Htrain & _).
  exists Q, log. split; [exact Htrain |].
  eapply Forall_impl; [apply (train_budget fuel draws Q log Hth Htrain) |].
  intros [e trace]. simpl.
  intros ((Hclock & Hsold & Hsum & Hrev) & Htime & Hlen & _).
  pose proof (max_price_nonneg cfg) as HM.
  repeat split; try lia. nia.
Qed.

(** With at least as many seats as [time_horizon] (100 against 12 by
    default) an episode cannot sell out: every episode runs exactly
    [time_horizon - 1] iterations and stops because [time] reached 0, with
    seats left. *)
Theorem episodes_end_by_the_clock fuel draws :
  prices_ok cfg -> enough_fuel cfg fuel ->
  1 <= time_horizon cfg <= num_seats cfg ->
  exists Q log,
    train cfg fuel draws (init_Q cfg) = Some (Ok (Q, log))
    /\ length log = episodes cfg
    /\ Forall (fun ep =>
         Z.of_nat (length ep.2) = time_horizon cfg - 1
         /\ time ep.1 = 0
         /\ 0 < seats_left ep.1) log.
Proof.
  intros Hp Hfuel Hth.
  destruct (train_ok cfg fuel draws Hp Hfuel) as (Q & log & Htrain & _ & Hlen & _).
  exists Q, log. split; [exact Htrain |]. split; [exact Hlen |].
  eapply Forall_impl;
    [apply (train_budget fuel draws Q log ltac:(lia) Htrain) |].
  intros [e trace]. simpl.
  intros ((Hclock & Hsold & Hsum & Hrev) & Htime & Hl & Hexit).
  lia.
Qed.

(** ** Shape of the logged iterations *)

Lemma episode_step_shape Q e d Q' e' t :
  episode_inv cfg e -> 0 < time e -> 0 < seats_left e ->
  episode_step cfg Q e d = Ok (Q', e', t) ->
  episode_inv cfg e' /\ transition_shape cfg t.
Proof.
  intros (Hsum & Hsold & Htime) Ht Hs H.
  apply episode_step_inv in H
    as (b & c & g & a & p & sale & b' & c' & mfq & old & H).
  destruct H as (_ & _ & _ & Ha & _ & _ & -> & _ & _ & _ & _ & _ & ->).
  unfold episode_inv, transition_shape.
  cbn [tr_state tr_next_state tr_action tr_reward seats_left seats_sold time].
  rewrite elem_of_states.
  split; [destruct sale; lia |].
  repeat split; try lia; try exact Ha.
  destruct sale; [left | right]; split; reflexivity.
Qed.

(** Every logged iteration reads the table at an enumerated state with
    [1 <= seats_left <= num_seats] and [1 <= time <= time_horizon - 1]; its
    [next_state] is one time step later with the same customer segment; the
    action is a price level; and either a seat went and the reward is the
    price, or none went and the reward is 0. *)
Theorem transitions_well_shaped fuel draws :
  prices_ok cfg -> enough_fuel cfg fuel ->
  exists Q log,
    train cfg fuel draws (init_Q cfg) = Some (Ok (Q, log))
    /\ Forall (fun ep => Forall (transition_shape cfg) ep.2) log.
Proof.
  intros Hp Hfuel.
  destruct (train_ok cfg fuel draws Hp Hfuel) as (Q & log & Htrain & _).
  exists Q, log. split; [exact Htrain |].
  unfold train in Htrain.
  eapply (train_from_inv cfg (fun _ => True)) in Htrain;
    [destruct Htrain as (_ & H & _); exact H | | exact I | apply Forall_nil_2].
  intros fuel' d Q0 Q1 e trace _ Hrun. split; [exact I |]. simpl.
  unfold run_episode in Hrun.
  eapply (episode_loop_inv cfg (fun _ => True) (episode_inv cfg)
            (transition_shape cfg)) in Hrun;
    [tauto | | exact I | apply episode_start_inv | apply Forall_nil_2].
  intros Qa ea da Qb eb tb _ He Ht Hs Hstep.
  split; [exact I |]. eapply episode_step_shape; eauto.
Qed.

End TrainingMore.

(** * Degenerate configurations *)

Section Degenerate.

Variable cfg : config.

Lemma run_episode_idle fuel d Q :
  time_horizon cfg <= 1 \/ num_seats cfg <= 0 ->
  run_episode cfg fuel d Q = Some (Ok (Q, episode_start cfg, [])).
Proof.
  intros H. unfold run_episode.
  assert ((0 <? time (episode_start cfg))
          && (0 <? seats_left (episode_start cfg)) = false) as Hcond.
  { apply andb_false_iff. cbn [episode_start time seats_left].
    destruct H; [left | right]; apply Z.ltb_ge; lia. }
  destruct fuel; cbn [episode_loop]; rewrite Hcond; reflexivity.
Qed.

Lemma train_from_idle fuel draws k n Q log :
  time_horizon cfg <= 1 \/ num_seats cfg <= 0 ->
  train_from cfg fuel draws k n Q log
  = Some (Ok (Q, log ++ replicate n (episode_start cfg, []))).
Proof.
  intros H. revert k log.
  induction n as [| n IH]; intros k log; cbn [train_from replicate].
  - rewrite app_nil_r. reflexivity.
  - rewrite run_episode_idle by exact H. rewrite IH.
    rewrite <- app_assoc. reflexivity.
Qed.

(** With [time_horizon <= 1] or [num_seats <= 0] the loop condition is
    false from the start: no iteration runs, nothing is drawn, no price
    level is consulted, and training returns the table it was given, for
    any fuel. *)
Theorem degenerate_config_never_iterates fuel draws Q :
  time_horizon cfg <= 1 \/ num_seats cfg <= 0 ->
  train cfg fuel draws Q
  = Some (Ok (Q, replicate (episodes cfg) (episode_start cfg, []))).
Proof. intros H. unfold train. rewrite train_from_idle by exact H. reflexivity. Qed.

Lemma random_choice_nil {A : Type} (k : nat) :
  random_choice (@nil A) k = Raise IndexError.
Proof. unfold random_choice. simpl. destruct k; reflexivity. Qed.

Lemma greedy_action_no_prices Q s pick :
  price_levels cfg = [] -> greedy_action cfg Q s pick = Raise ValueError.
Proof. intros Hnil. unfold greedy_action, actions. rewrite Hnil. reflexivity. Qed.

Lemma episode_step_no_prices Q e d :
  price_levels cfg = [] -> time_horizon cfg <> 0 ->
  episode_step cfg Q e d
  = Raise (if Rlt_dec (explore_u d) (epsilon cfg)
           then IndexError else ValueError).
Proof.
  intros Hnil Hth. unfold episode_step.
  rewrite get_booking_rate_by_rate by exact Hth.
  rewrite get_competitor_price_level_eq by exact Hth.
  destruct (random_choice_ok customer_segments (segment_pick d)) as [g ->];
    [discriminate |].
  cbn [mbind result_bind].
  destruct (Rlt_dec (explore_u d) (epsilon cfg)).
  - unfold actions. rewrite Hnil, random_choice_nil. reflexivity.
  - rewrite greedy_action_no_prices by exact Hnil. reflexivity.
Qed.

(** With an empty list of price levels and a loop that is entered
    ([time_horizon >= 2], [num_seats >= 1], at least one episode) the very
    first iteration raises: [IndexError] from [random.choice(actions)] when
    it explores, [ValueError] from [max] of an empty list when it exploits.
    The states and the (empty) table were built before. *)
Theorem empty_price_list_raises_in_first_iteration fuel draws picks :
  price_levels cfg = [] ->
  2 <= time_horizon cfg -> 1 <= num_seats cfg ->
  (0 < episodes cfg)%nat -> (0 < fuel)%nat ->
  let x := if Rlt_dec (explore_u (draws 0%nat 0%nat)) (epsilon cfg)
           then IndexError else ValueError in
  init_Q cfg = ∅
  /\ train cfg fuel draws (init_Q cfg) = Some (Raise x)
  /\ program cfg fuel draws picks = Some (Raise x).
Proof.
  intros Hnil Hth Hns Hep Hfuel x.
  assert (train cfg fuel draws (init_Q cfg) = Some (Raise x)) as Htrain.
  { unfold train. destruct (episodes cfg) as [| n]; [lia |].
    cbn [train_from]. unfold run_episode.
    destruct fuel as [| fuel]; [lia |]. cbn [episode_loop].
    assert ((0 <? time (episode_start cfg))
            && (0 <? seats_left (episode_start cfg)) = true) as ->.
    { apply andb_true_iff. cbn [episode_start time seats_left].
      split; apply Z.ltb_lt; lia. }
    rewrite episode_step_no_prices by (assumption || lia). reflexivity. }
  split; [| split; [exact Htrain |]].
  - apply map_eq. intros [s a]. rewrite lookup_init_Q, lookup_empty.
    apply decide_False. intros [_ Ha]. unfold actions in Ha.
    rewrite Hnil in Ha. inversion Ha.
  - unfold program, state_space_builder. rewrite Htrain. reflexivity.
Qed.

(** With an empty list of price levels, at least one state and a loop that
    is never entered, training passes and the Policy Extractor raises
    [ValueError] at the first state: [max] of an empty list. *)
Theorem empty_price_list_raises_in_extraction fuel draws picks :
  price_levels cfg = [] ->
  0 <= num_seats cfg -> 0 <= time_horizon cfg ->
  time_horizon cfg <= 1 \/ num_seats cfg <= 0 ->
  program cfg fuel draws picks = Some (Raise ValueError).
Proof.
  intros Hnil Hns Hth Hidle. unfold program, state_space_builder, train.
  rewrite train_from_idle by exact Hidle. cbn [app].
  assert ((0, 0, Low, Low, Economy) ∈ states cfg) as Hin
    by (apply elem_of_states; lia).
  destruct (states cfg) as [| s l]; [inversion Hin |].
  cbn [extract_policy]. rewrite greedy_action_no_prices by exact Hnil.
  reflexivity.
Qed.

End Degenerate.

(** * The position of a state in the enumeration *)

Section Indexing.

Variable cfg : config.

Lemma lookup_bind_const {A B : Type} (f : A -> list B) (k : nat)
    (l : list A) (i j : nat) (x : A) (y : B) :
  (forall a, length (f a) = k) ->
  l !! i = Some x -> f x !! j = Some y ->
  (l ≫= f) !! (i * k + j)%nat = Some y.
Proof.
  intros Hlen. revert i.
  induction l as [| a l IH]; intros i Hi Hj; [discriminate |].
  rewrite bind_cons. destruct i as [| i]; simpl in Hi.
  - injection Hi as ->. rewrite lookup_app_l; [exact Hj |].
    apply lookup_lt_Some in Hj. simpl. lia.
  - rewrite lookup_app_r by (rewrite Hlen; simpl; lia).
    rewrite Hlen.
    replace (S i * k + j - k)%nat with (i * k + j)%nat by (simpl; lia).
    apply IH; assumption.
Qed.

Lemma lookup_range (n z : Z) :
  0 <= z < n -> range n !! Z.to_nat z = Some z.
Proof. intros H. unfold range. apply lookup_seqZ. lia. Qed.

Lemma state_index_nat seats time b c g :
  0 <= seats -> 0 <= time -> 0 <= time_horizon cfg ->
  Z.to_nat (state_index cfg (seats, time, b, c, g))
  = (Z.to_nat seats * (Z.to_nat (time_horizon cfg + 1) * 18)
     + (Z.to_nat time * 18
        + ((level_to_nat b * 3 + level_to_nat c) * 2 + segment_to_nat g)))%nat.
Proof.
  intros Hs Ht Hth. apply Nat2Z.inj. unfold state_index.
  rewrite Z2Nat.id
    by (pose proof (Z.mul_nonneg_nonneg seats (time_horizon cfg + 1)); lia).
  rewrite !Nat2Z.inj_add, !Nat2Z.inj_mul, !Nat2Z.inj_add, !Nat2Z.inj_mul.
  rewrite !Z2Nat.id by lia. ring.
Qed.

Lemma states_index_lookup seats time b c g :
  0 <= seats <= num_seats cfg -> 0 <= time <= time_horizon cfg ->
  states cfg !! Z.to_nat (state_index cfg (seats, time, b, c, g))
  = Some (seats, time, b, c, g).
Proof.
  intros Hs Ht. rewrite state_index_nat by lia. unfold states.
  apply (lookup_bind_const _ _ _ _ _ seats).
  - intros s. rewrite (length_bind_const _ 18).
    + unfold range. rewrite length_seqZ. reflexivity.
    + intros t. reflexivity.
  - apply lookup_range. lia.
  - apply (lookup_bind_const _ _ _ _ _ time).
    + intros t. reflexivity.
    + apply lookup_range. lia.
    + destruct b, c, g; reflexivity.
Qed.

(** The enumeration of lines 95-101 lists every state once, at the position
    obtained by packing its fields in the order of the loops:
    [(((seats_left * (time_horizon + 1) + time) * 3 + booking_rate) * 3
      + competitor_price) * 2 + customer_segment]. *)
Theorem states_lookup_by_index seats time b c g :
  0 <= seats <= num_seats cfg -> 0 <= time <= time_horizon cfg ->
  states cfg !! Z.to_nat (state_index cfg (seats, time, b, c, g))
  = Some (seats, time, b, c, g)
  /\ (forall i, states cfg !! i = Some (seats, time, b, c, g) ->
        i = Z.to_nat (state_index cfg (seats, time, b, c, g)))
  /\ 0 <= state_index cfg (seats, time, b, c, g)
       < Z.of_nat (length (states cfg)).
Proof.
  intros Hs Ht.
  pose proof (states_index_lookup seats time b c g Hs Ht) as Hlook.
  split; [exact Hlook |]. split.
  - intros i Hi. eapply NoDup_lookup; [apply NoDup_states | exact Hi | exact Hlook].
  - apply lookup_lt_Some in Hlook. split; [| lia].
    unfold state_index.
    pose proof (Z.mul_nonneg_nonneg seats (time_horizon cfg + 1)). lia.
Qed.

End Indexing.

(** * Witnesses of the further properties *)

Lemma training_keeps_key_set_witness :
  prices_ok default_config
  /\ enough_fuel default_config 11
  /\ exists Q log,
       train default_config 11 still_draws (init_Q default_config)
       = Some (Ok (Q, log))
       /\ dom Q = dom (init_Q default_config)
       /\ size Q = size (init_Q default_config)
       /\ forall s a, is_Some (Q !! (s, a))
            <-> s ∈ states default_config /\ a ∈ price_levels default_config.
Proof.
  assert (prices_ok default_config) as Hp by default_prices.
  assert (enough_fuel default_config 11) as Hf by default_fuel.
  split; [exact Hp |]. split; [exact Hf |].
  apply (training_keeps_key_set default_config 11 still_draws Hp Hf).
Defined.

Lemma zero_learning_rate_freezes_table_witness :
  prices_ok frozen_config
  /\ enough_fuel frozen_config 11
  /\ alpha frozen_config = 0%R
  /\ exists log,
       train frozen_config 11 still_draws (init_Q frozen_config)
       = Some (Ok (init_Q frozen_config, log)).
Proof.
  assert (prices_ok frozen_config) as Hp by default_prices.
  assert (enough_fuel frozen_config 11) as Hf by default_fuel.
  assert (alpha frozen_config = 0%R) as Ha by reflexivity.
  split; [exact Hp |]. split; [exact Hf |]. split; [exact Ha |].
  apply (zero_learning_rate_freezes_table frozen_config 11 still_draws Hp Hf Ha).
Defined.

Lemma episode_sales_and_revenue_bounds_witness :
  prices_ok default_config
  /\ enough_fuel default_config 11
  /\ 1 <= time_horizon default_config
  /\ exists Q log,
       train default_config 11 still_draws (init_Q default_config)
       = Some (Ok (Q, log))
       /\ Forall (fun ep =>
            time ep.1 + time_elapsed ep.1 = time_horizon default_config - 1
            /\ Z.of_nat (length ep.2) = time_elapsed ep.1
            /\ 0 <= seats_sold ep.1 <= time_elapsed ep.1
            /\ time_elapsed ep.1 <= time_horizon default_config - 1
            /\ num_seats default_config - (time_horizon default_config - 1)
               <= seats_left ep.1
            /\ 0 <= total_reward ep.1
               <= max_price default_config * seats_sold ep.1
            /\ total_reward ep.1
               <= max_price default_config * (time_horizon default_config - 1))
            log.
Proof.
  assert (prices_ok default_config) as Hp by default_prices.
  assert (enough_fuel default_config 11) as Hf by default_fuel.
  assert (1 <= time_horizon default_config) as Hth by (simpl; lia).
  split; [exact Hp |]. split; [exact Hf |]. split; [exact Hth |].
  apply (episode_sales_and_revenue_bounds default_config 11 still_draws
           Hp Hf Hth).
Defined.

Lemma episodes_end_by_the_clock_witness :
  prices_ok default_config
  /\ enough_fuel default_config 11
  /\ 1 <= time_horizon default_config <= num_seats default_config
  /\ exists Q log,
       train default_config 11 still_draws (init_Q default_config)
       = Some (Ok (Q, log))
       /\ length log = episodes default_config
       /\ Forall (fun ep =>
            Z.of_nat (length ep.2) = time_horizon default_config - 1
            /\ time ep.1 = 0
            /\ 0 < seats_left ep.1) log.
Proof.
  assert (prices_ok default_config) as Hp by default_prices.
  assert (enough_fuel default_config 11) as Hf by default_fuel.
  assert (1 <= time_horizon default_config <= num_seats default_config)
    as Hth by (simpl; lia).
  split; [exact Hp |]. split; [exact Hf |]. split; [exact Hth |].
  apply (episodes_end_by_the_clock default_config 11 still_draws Hp Hf Hth).
Defined.

Lemma transitions_well_shaped_witness :
  prices_ok default_config
  /\ enough_fuel default_config 11
  /\ exists Q log,
       train default_config 11 still_draws (init_Q default_config)
       = Some (Ok (Q, log))
       /\ Forall (fun ep => Forall (transition_shape default_config) ep.2) log.
Proof.
  assert (prices_ok default_config) as Hp by default_prices.
  assert (enough_fuel default_config 11) as Hf by default_fuel.
  split; [exact Hp |]. split; [exact Hf |].
  apply (transitions_well_shaped default_config 11 still_draws Hp Hf).
Defined.

Lemma degenerate_config_never_iterates_witness :
  (time_horizon no_horizon_config <= 1 \/ num_seats no_horizon_config <= 0)
  /\ train no_horizon_config 0 still_draws (init_Q no_horizon_config)
     = Some (Ok (init_Q no_horizon_config,
                 replicate (episodes no_horizon_config)
                           (episode_start no_horizon_config, []))).
Proof.
  assert (time_horizon no_horizon_config <= 1 \/ num_seats no_horizon_config <= 0)
    as H by (left; simpl; lia).
  split; [exact H |].
  apply (degenerate_config_never_iterates no_horizon_config 0 still_draws _ H).
Defined.

Lemma empty_price_list_raises_in_first_iteration_witness :
  price_levels no_price_config = []
  /\ 2 <= time_horizon no_price_config
  /\ 1 <= num_seats no_price_config
  /\ (0 < episodes no_price_config)%nat
  /\ (0 < 11)%nat
  /\ let x := if Rlt_dec (explore_u (still_draws 0%nat 0%nat))
                         (epsilon no_price_config)
              then IndexError else ValueError in
     init_Q no_price_config = ∅
     /\ train no_price_config 11 still_draws (init_Q no_price_config)
        = Some (Raise x)
     /\ program no_price_config 11 still_draws first_picks = Some (Raise x).
Proof.
  assert (price_levels no_price_config = []) as Hnil by reflexivity.
  assert (2 <= time_horizon no_price_config) as Hth by (simpl; lia).
  assert (1 <= num_seats no_price_config) as Hns by (simpl; lia).
  assert (0 < episodes no_price_config)%nat as Hep by (simpl; lia).
  assert (0 < 11)%nat as Hfuel by lia.
  split; [exact Hnil |]. split; [exact Hth |]. split; [exact Hns |].
  split; [exact Hep |]. split; [exact Hfuel |].
  apply (empty_price_list_raises_in_first_iteration no_price_config 11
           still_draws first_picks Hnil Hth Hns Hep Hfuel).
Defined.

Lemma empty_price_list_raises_in_extraction_witness :
  let cfg := {| num_seats := 100; time_horizon := 1; price_levels := [];
                alpha := 15 / 100; gamma := 85 / 100; epsilon := 2 / 10;
                episodes := 5000 |} in
  price_levels cfg = []
  /\ 0 <= num_seats cfg /\ 0 <= time_horizon cfg
  /\ (time_horizon cfg <= 1 \/ num_seats cfg <= 0)
  /\ program cfg 0 still_draws first_picks = Some (Raise ValueError).
Proof.
  intros cfg.
  assert (price_levels cfg = []) as Hnil by reflexivity.
  assert (0 <= num_seats cfg) as Hns by (simpl; lia).
  assert (0 <= time_horizon cfg) as Hth by (simpl; lia).
  assert (time_horizon cfg <= 1 \/ num_seats cfg <= 0) as Hidle
    by (left; simpl; lia).
  split; [exact Hnil |]. split; [exact Hns |]. split; [exact Hth |].
  split; [exact Hidle |].
  apply (empty_price_list_raises_in_extraction cfg 0 still_draws first_picks
           Hnil Hns Hth Hidle).
Defined.

Lemma states_lookup_by_index_witness :
  0 <= 100 <= num_seats default_config
  /\ 0 <= 11 <= time_horizon default_config
  /\ states default_config
       !! Z.to_nat (state_index default_config (100, 11, High, Low, Business))
     = Some (100, 11, High, Low, Business)
  /\ (forall i,
        states default_config !! i = Some (100, 11, High, Low, Business) ->
        i = Z.to_nat (state_index default_config (100, 11, High, Low, Business)))
  /\ 0 <= state_index default_config (100, 11, High, Low, Business)
       < Z.of_nat (length (states default_config)).
Proof.
  assert (0 <= 100 <= num_seats default_config) as Hs by (simpl; lia).
  assert (0 <= 11 <= time_horizon default_config) as Ht by (simpl; lia).
  split; [exact Hs |]. split; [exact Ht |].
  apply (states_lookup_by_index default_config 100 11 High Low Business Hs Ht).
Defined.

(** * The two rules of an iteration *)

Section Rules.

Variable cfg : config.

Lemma episode_step_rules Q e d Q' e' t :
  episode_step cfg Q e d = Ok (Q', e', t) ->
  (if Rlt_dec (explore_u d) (epsilon cfg)
   then random_choice (actions cfg) (action_pick d)
   else greedy_action cfg Q (tr_state t) (action_pick d)) = Ok (tr_action t)
  /\ exists old mfq,
       Q !! (tr_state t, tr_action t) = Some old
       /\ (if tr_next_in_states t
           then is_row_max cfg Q (tr_next_state t) mfq
           else mfq = 0%R)
       /\ Q' = <[(tr_state t, tr_action t) :=
                  (old + alpha cfg
                         * (IZR (tr_reward t) + gamma cfg * mfq - old))%R]> Q.
Proof.
  unfold episode_step. intros H.
  apply bind_Ok_inv in H as (b & Hb & H).
  apply bind_Ok_inv in H as (c & Hc & H).
  apply bind_Ok_inv in H as (g & Hg & H).
  apply bind_Ok_inv in H as (a & Ha & H).
  apply bind_Ok_inv in H as (p & Hp & H).
  apply bind_Ok_inv in H as (sale & Hsale & H).
  cbv zeta in H.
  apply bind_Ok_inv in H as (b' & Hb' & H).
  apply bind_Ok_inv in H as (c' & Hc' & H).
  apply bind_Ok_inv in H as (mfq & Hmfq & H).
  apply bind_Ok_inv in H as (old & Hold%q_get_Ok & H).
  injection H as <- <- <-.
  cbn [tr_state tr_action tr_reward tr_next_state tr_next_in_states].
  split; [exact Ha |]. exists old, mfq. split; [exact Hold |].
  split; [| reflexivity].
  destruct (bool_decide _); [| congruence].
  apply bind_Ok_inv in Hmfq as (vs & Hvs%map_result_inv & [Hin Hmax]%py_max_spec).
  split.
  - destruct (Forall2_elem_r _ _ _ _ Hvs Hin) as (a' & Ha' & Hv%q_get_Ok).
    eauto.
  - intros a' Ha'.
    destruct (Forall2_elem_l _ _ _ _ Hvs Ha') as (v & Hv & Hget%q_get_Ok).
    eauto.
Qed.

(** Epsilon-greedy, lines 123-129: an iteration entered with usable prices
    and a dense table succeeds; when the uniform draw is below [epsilon] its
    action is the price level at the drawn position, otherwise it is a
    maximiser of the row of the current state in the table as it was before
    the update. *)
Theorem epsilon_greedy_rule Q e d :
  prices_ok cfg -> dense cfg Q ->
  0 < time e < time_horizon cfg ->
  0 < seats_left e <= num_seats cfg ->
  exists Q' e' t,
    episode_step cfg Q e d = Ok (Q', e', t)
    /\ ((explore_u d < epsilon cfg)%R ->
        random_choice (price_levels cfg) (action_pick d) = Ok (tr_action t))
    /\ (~ (explore_u d < epsilon cfg)%R ->
        is_argmax cfg Q (tr_state t) (tr_action t)).
Proof.
  intros Hp Hd Ht Hs.
  destruct (episode_step_ok cfg Q e d Hp Hd Ht Hs) as [[[Q' e'] t] Hstep].
  exists Q', e', t. split; [exact Hstep |].
  apply episode_step_rules in Hstep as [Hact _].
  destruct (Rlt_dec (explore_u d) (epsilon cfg)); split; intros H;
    try contradiction.
  - exact Hact.
  - apply greedy_action_sound in Hact. exact Hact.
Qed.

(** The temporal-difference update, lines 150-156: the iteration leaves
    every entry but that of [(state, action)] as it was, and sets that one
    to [old + alpha * (reward + gamma * m - old)] where [m] is the largest
    entry of the row of [next_state], which is always an enumerated state. *)
Theorem td_update_rule Q e d :
  prices_ok cfg -> dense cfg Q ->
  0 < time e < time_horizon cfg ->
  0 < seats_left e <= num_seats cfg ->
  exists Q' e' t old m,
    episode_step cfg Q e d = Ok (Q', e', t)
    /\ Q !! (tr_state t, tr_action t) = Some old
    /\ is_row_max cfg Q (tr_next_state t) m
    /\ Q' !! (tr_state t, tr_action t)
       = Some (old + alpha cfg * (IZR (tr_reward t) + gamma cfg * m - old))%R
    /\ forall key, key <> (tr_state t, tr_action t) -> Q' !! key = Q !! key.
Proof.
  intros Hp Hd Ht Hs.
  destruct (episode_step_ok cfg Q e d Hp Hd Ht Hs) as [[[Q' e'] t] Hstep].
  pose proof (episode_step_rules _ _ _ _ _ _ Hstep)
    as (_ & old & m & Hold & Hm & HQ').
  assert (tr_next_in_states t = true) as Hknown.
  { pose proof (episode_step_inv _ _ _ _ _ _ _ Hstep)
      as (b & c & g & a & p & sale & b' & c' & mfq & old' & H).
    destruct H as (_ & _ & _ & _ & _ & _ & -> & _ & _ & _ & _ & _ & ->).
    cbn [tr_next_in_states seats_left time].
    apply bool_decide_eq_true, elem_of_states. destruct sale; lia. }
  rewrite Hknown in Hm.
  exists Q', e', t, old, m. split; [exact Hstep |]. split; [exact Hold |].
  split; [exact Hm |]. rewrite HQ'. split; [apply lookup_insert_eq |].
  intros key Hne. apply lookup_insert_ne. congruence.
Qed.

End Rules.

(** * The policy, state by state *)

Section PolicyMore.

Variable cfg : config.

Lemma extract_policy_outside (Q : qtable) (picks : nat -> nat) (i : nat)
    (l : list state) (pol pol' : policy) :
  extract_policy cfg Q picks i l pol = Ok pol' ->
  forall s, s ∉ l -> pol' !! s = pol !! s.
Proof.
  revert i pol. induction l as [| s0 l IH]; intros i pol; cbn [extract_policy].
  - intros [= <-] s _. reflexivity.
  - intros H s Hs. apply bind_Ok_inv in H as (a & _ & H).
    apply not_elem_of_cons in Hs as [Hne Hl].
    rewrite (IH _ _ H s Hl). apply lookup_insert_ne. congruence.
Qed.

(** The entry of the state at position [j] is the greedy choice made with
    the [j]-th tie-break draw. *)
Lemma extract_policy_lookup (Q : qtable) (picks : nat -> nat) (i : nat)
    (l : list state) (pol pol' : policy) :
  NoDup l ->
  extract_policy cfg Q picks i l pol = Ok pol' ->
  forall j s, l !! j = Some s ->
    exists a, greedy_action cfg Q s (picks (i + j)%nat) = Ok a
              /\ pol' !! s = Some a.
Proof.
  intros Hnd. revert i pol.
  induction Hnd as [| s0 l Hnotin Hnd IH]; intros i pol; cbn [extract_policy].
  - intros _ j s Hj. discriminate.
  - intros H j s Hj. apply bind_Ok_inv in H as (a & Ha & H).
    destruct j as [| j]; simpl in Hj.
    + injection Hj as <-. exists a. rewrite Nat.add_0_r.
      split; [exact Ha |].
      rewrite (extract_policy_outside _ _ _ _ _ _ H s0 Hnotin).
      apply lookup_insert_eq.
    + destruct (IH _ _ H j s Hj) as (a' & Ha' & Hpol).
      exists a'. replace (i + S j)%nat with (S i + j)%nat by lia. auto.
Qed.

Lemma dom_policy (pol : policy) :
  (forall s, s ∈ states cfg -> is_Some (pol !! s)) ->
  (forall s, s ∉ states cfg -> pol !! s = None) ->
  size pol = length (states cfg).
Proof.
  intros Hin Hout.
  assert (dom pol = list_to_set (states cfg)) as Hdom.
  { apply set_eq. intros s. rewrite elem_of_dom, elem_of_list_to_set. split.
    - intros Hs. destruct (decide (s ∈ states cfg)) as [| Hn]; [assumption |].
      rewrite (Hout s Hn) in Hs. destruct Hs; discriminate.
    - apply Hin. }
  rewrite <- size_dom, Hdom. apply size_list_to_set, NoDup_states.
Qed.

(** The policy has one entry per enumerated state and no other, and the
    entry of a state is the greedy choice in the final table made with the
    tie-break draw numbered by the state's position in [states]. *)
Theorem policy_entry_per_state fuel draws picks :
  prices_ok cfg -> enough_fuel cfg fuel ->
  exists Q pol,
    program cfg fuel draws picks = Some (Ok (Q, pol))
    /\ size pol = length (states cfg)
    /\ forall seats time b c g,
         0 <= seats <= num_seats cfg -> 0 <= time <= time_horizon cfg ->
         exists a,
           greedy_action cfg Q (seats, time, b, c, g)
             (picks (Z.to_nat (state_index cfg (seats, time, b, c, g)))) = Ok a
           /\ pol !! (seats, time, b, c, g) = Some a.
Proof.
  intros Hp Hfuel. unfold program, state_space_builder.
  destruct (train_ok cfg fuel draws Hp Hfuel) as (Q & log & -> & Hd & _).
  destruct (extract_policy_spec cfg Q picks 0 (states cfg) ∅)
    as (pol & Hrun & Hin & Hout).
  { destruct Hp as [Hne _]. exact Hne. }
  { intros s a Hs Ha. apply Hd; assumption. }
  rewrite Hrun. cbn [mbind result_bind].
  exists Q, pol. split; [reflexivity |]. split.
  - apply dom_policy.
    + intros s Hs. destruct (Hin s Hs) as (a & Ha & _). eauto.
    + intros s Hs. rewrite (Hout s Hs). apply lookup_empty.
  - intros seats time b c g Hs Ht.
    pose proof (states_index_lookup cfg seats time b c g Hs Ht) as Hlook.
    apply (extract_policy_lookup _ _ _ _ _ _ (NoDup_states cfg) Hrun _ _ Hlook).
Qed.

(** Without any episode the script returns the zero table, and its policy
    gives each state the price level at the position drawn for that state:
    the untrained policy is nothing but the tie-break draws. *)
Theorem untrained_policy_is_the_draws fuel draws picks :
  episodes cfg = 0%nat -> price_levels cfg <> [] ->
  exists pol,
    program cfg fuel draws picks = Some (Ok (init_Q cfg, pol))
    /\ forall seats time b c g,
         0 <= seats <= num_seats cfg -> 0 <= time <= time_horizon cfg ->
         exists a,
           random_choice (price_levels cfg)
             (picks (Z.to_nat (state_index cfg (seats, time, b, c, g)))) = Ok a
           /\ pol !! (seats, time, b, c, g) = Some a.
Proof.
  intros Hep Hne. unfold program, state_space_builder, train.
  rewrite Hep. cbn [train_from].
  destruct (extract_policy_spec cfg (init_Q cfg) picks 0 (states cfg) ∅)
    as (pol & Hrun & _ & _).
  { exact Hne. }
  { intros s a Hs Ha. apply init_Q_dense; assumption. }
  rewrite Hrun. cbn [mbind result_bind].
  exists pol. split; [reflexivity |].
  intros seats time b c g Hs Ht.
  pose proof (states_index_lookup cfg seats time b c g Hs Ht) as Hlook.
  destruct (extract_policy_lookup _ _ _ _ _ _ (NoDup_states cfg) Hrun _ _ Hlook)
    as (a & Ha & Hpol).
  exists a. split; [| exact Hpol].
  rewrite <- Ha. symmetry. apply (greedy_action_flat cfg _ _ _ 0%R); [| exact Hne].
  intros a' Ha'. rewrite lookup_init_Q. apply decide_True. split; [| exact Ha'].
  apply elem_of_states. auto.
Qed.

End PolicyMore.

Lemma epsilon_greedy_rule_witness :
  prices_ok default_config
  /\ dense default_config (init_Q default_config)
  /\ 0 < time (episode_start default_config) < time_horizon default_config
  /\ 0 < seats_left (episode_start default_config) <= num_seats default_config
  /\ exists Q' e' t,
       episode_step default_config (init_Q default_config)
         (episode_start default_config) still_draw = Ok (Q', e', t)
       /\ ((explore_u still_draw < epsilon default_config)%R ->
           random_choice (price_levels default_config) (action_pick still_draw)
           = Ok (tr_action t))
       /\ (~ (explore_u still_draw < epsilon default_config)%R ->
           is_argmax default_config (init_Q default_config)
             (tr_state t) (tr_action t)).
Proof.
  assert (prices_ok default_config) as Hp by default_prices.
  assert (dense default_config (init_Q default_config)) as Hd
    by apply init_Q_dense.
  assert (0 < time (episode_start default_config) < time_horizon default_config)
    as Ht by (simpl; lia).
  assert (0 < seats_left (episode_start default_config)
          <= num_seats default_config) as Hs by (simpl; lia).
  split; [exact Hp |]. split; [exact Hd |]. split; [exact Ht |].
  split; [exact Hs |].
  apply (epsilon_greedy_rule default_config (init_Q default_config)
           (episode_start default_config) still_draw Hp Hd Ht Hs).
Defined.

Lemma td_update_rule_witness :
  prices_ok default_config
  /\ dense default_config (init_Q default_config)
  /\ 0 < time (episode_start default_config) < time_horizon default_config
  /\ 0 < seats_left (episode_start default_config) <= num_seats default_config
  /\ exists Q' e' t old m,
       episode_step default_config (init_Q default_config)
         (episode_start default_config) still_draw = Ok (Q', e', t)
       /\ init_Q default_config !! (tr_state t, tr_action t) = Some old
       /\ is_row_max default_config (init_Q default_config) (tr_next_state t) m
       /\ Q' !! (tr_state t, tr_action t)
          = Some (old + alpha default_config
                        * (IZR (tr_reward t) + gamma default_config * m - old))%R
       /\ forall key, key <> (tr_state t, tr_action t) ->
            Q' !! key = init_Q default_config !! key.
Proof.
  assert (prices_ok default_config) as Hp by default_prices.
  assert (dense default_config (init_Q default_config)) as Hd
    by apply init_Q_dense.
  assert (0 < time (episode_start default_config) < time_horizon default_config)
    as Ht by (simpl; lia).
  assert (0 < seats_left (episode_start default_config)
          <= num_seats default_config) as Hs by (simpl; lia).
  split; [exact Hp |]. split; [exact Hd |]. split; [exact Ht |].
  split; [exact Hs |].
  apply (td_update_rule default_config (init_Q default_config)
           (episode_start default_config) still_draw Hp Hd Ht Hs).
Defined.

Lemma policy_entry_per_state_witness :
  prices_ok default_config
  /\ enough_fuel default_config 11
  /\ exists Q pol,
       program default_config 11 still_draws first_picks = Some (Ok (Q, pol))
       /\ size pol = length (states default_config)
       /\ forall seats time b c g,
            0 <= seats <= num_seats default_config ->
            0 <= time <= time_horizon default_config ->
            exists a,
              greedy_action default_config Q (seats, time, b, c, g)
                (first_picks
                   (Z.to_nat (state_index default_config (seats, time, b, c, g))))
              = Ok a
              /\ pol !! (seats, time, b, c, g) = Some a.
Proof.
  assert (prices_ok default_config) as Hp by default_prices.
  assert (enough_fuel default_config 11) as Hf by default_fuel.
  split; [exact Hp |]. split; [exact Hf |].
  apply (policy_entry_per_state default_config 11 still_draws first_picks Hp Hf).
Defined.

Lemma untrained_policy_is_the_draws_witness :
  episodes untrained_config = 0%nat
  /\ price_levels untrained_config <> []
  /\ exists pol,
       program untrained_config 0 still_draws first_picks
       = Some (Ok (init_Q untrained_config, pol))
       /\ forall seats time b c g,
            0 <= seats <= num_seats untrained_config ->
            0 <= time <= time_horizon untrained_config ->
            exists a,
              random_choice (price_levels untrained_config)
                (first_picks
                   (Z.to_nat (state_index untrained_config (seats, time, b, c, g))))
              = Ok a
              /\ pol !! (seats, time, b, c, g) = Some a.
Proof.
  assert (episodes untrained_config = 0%nat) as Hep by reflexivity.
  assert (price_levels untrained_config <> []) as Hne by discriminate.
  split; [exact Hep |]. split; [exact Hne |].
  apply (untrained_policy_is_the_draws untrained_config 0 still_draws
           first_picks Hep Hne).
Defined.
